(** * Tree Census QC service: the [/qc] estimator of Flakapp_Tree_Cencus.py

    A shallow embedding of the Flask handler [qc] and of the module global
    [species_coeffs], followed by the properties of the estimator.

    - Python [float] is IEEE-754 binary64: it is Rocq's primitive [float],
      whose multiplication and comparisons are the hardware ones.
      [round(x, 1)] is written out on the exact binary value ([PyFloat]).
    - What the handler calls and this repository does not define (os.path,
      cv2, the C library's pow behind [**]) is gathered in two records of
      functions, [host] and [lib]; every call of them is logged.
    - The module global is threaded through the handler as state, the
      handler's [return] statements and uncaught exceptions end the run
      early (monad [M]).
    - The dictionary [species_coeffs] and the JSON body are [gmap]s. *)

From Stdlib Require Import ZArith Uint63 Floats Bool List Lia.
From stdpp Require Import gmap strings list fin_maps.

Set Warnings "-inexact-float".
Local Open Scope Z_scope.

(** ** Python floats *)

Module PyFloat.

(** [math.pi]. *)
Definition pi : float := 0x1.921fb54442d18p+1%float.

(** [round(x, 1)] on a float (CPython [float___round___impl] followed by
    [double_round]): NaN and the infinities round to themselves; a finite
    [x] is printed with one digit after the point, correctly rounded with
    ties to even on the exact binary value, and the digits are read back
    as the nearest double.  [tenths m e] is that digit string as an
    integer number of tenths for [|x| = m * 2^e]. *)
Definition tenths (m : positive) (e : Z) : N :=
  match e with
  | Zneg k =>
      let d := Z.pow_pos 2 k in
      let q := (10 * Zpos m) / d in
      let r := (10 * Zpos m) mod d in
      Z.to_N match 2 * r ?= d with
             | Lt => q
             | Gt => q + 1
             | Eq => if Z.even q then q else q + 1
             end
  | _ => Z.to_N (10 * Zpos m * 2 ^ e)
  end.

(** The double nearest to [(-1)^s * n / 10] (what strtod returns on the
    digit string; the sign of a zero is kept). *)
Definition of_tenths (s : bool) (n : N) : spec_float :=
  match n with
  | N0 => S754_zero s
  | Npos p => SF64div (S754_finite s p 0) (S754_finite false 10 0)
  end.

Definition round1 (x : float) : float :=
  match Prim2SF x with
  | S754_finite s m e => SF2Prim (of_tenths s (tenths m e))
  | _ => x
  end.

(** A float that is a number: a zero or a finite non-zero value. *)
Definition finiteb (x : float) : bool :=
  match Prim2SF x with
  | S754_zero _ | S754_finite _ _ _ => true
  | _ => false
  end.

(** [x] carries at most one decimal: it is the double nearest to some
    whole number of tenths. Infinities and NaN have no digits at all. *)
Definition one_decimal (x : float) : Prop :=
  finiteb x = true -> exists s n, x = SF2Prim (of_tenths s n).

(** [x] is not below zero: a zero of either sign, a positive finite
    value or [+inf]. NaN is not accepted. *)
Definition nonneg (x : float) : Prop := (0 <=? x)%float = true.

(** The same sign test on the specification of a float. *)
Definition sf_nonneg (x : spec_float) : bool :=
  match x with
  | S754_zero _ | S754_finite false _ _ | S754_infinity false => true
  | _ => false
  end.

(** A positive finite value. *)
Definition sf_pos (x : spec_float) : bool :=
  match x with
  | S754_finite false _ _ => true
  | _ => false
  end.

Definition sf_is_nan (x : spec_float) : bool :=
  match x with S754_nan => true | _ => false end.

Definition positive_finite (x : float) : Prop := sf_pos (Prim2SF x) = true.

End PyFloat.


(** ** The request body

    [request.get_json()] gives the decoded JSON body, or [None] for the
    JSON body [null]. The model starts once it has returned: a request
    that Flask refuses inside [get_json()] (no JSON body, a body that does
    not parse) never reaches line 42 and is not a run of the model. The
    endpoint documents two fields, each a string; the model reads a JSON
    object whose values are strings or null. Numbers, lists and objects in
    these fields are outside the type. *)

Inductive json : Type :=
  | JNull
  | JStr (s : string).

(** Python truth value: [None] and the empty string are falsy. *)
Definition truthy (v : json) : bool :=
  match v with
  | JNull => false
  | JStr s => negb (String.eqb s "")
  end.

(** ** The module global [species_coeffs] (lines 13-20)

    An entry is a dictionary with the two keys "height" and "canopy", each
    a pair (factor, exponent). *)

Record coeffs : Type := Coeffs { height : float * float; canopy : float * float }.

Definition species_coeffs : gmap string coeffs :=
  list_to_map
    [ ("Silver maple", Coeffs (1.50, 1.778) (0.82, 1.995));
      ("Ginkgo",       Coeffs (1.71, 1.465) (0.63, 1.989));
      ("Oak",          Coeffs (1.30, 1.50)  (0.70, 1.20));
      ("Maple",        Coeffs (1.50, 1.70)  (0.80, 2.00));
      ("Pine",         Coeffs (0.80, 1.25)  (0.50, 1.40));
      ("Default",      Coeffs (1.00, 1.200) (0.50, 1.500)) ]%float.

(** The globals of the module as a running process holds them. *)
Record globals : Type := Globals { cur_species_coeffs : gmap string coeffs }.

Definition init_globals : globals := Globals species_coeffs.

(** ** What the handler calls outside this repository *)

Definition bgr_image : Type := list (list (Z * Z * Z)).
Definition gray_image : Type := list (list Z).
Definition contour : Type := list (Z * Z).
Definition hierarchy : Type := list (Z * Z * Z * Z).

Inductive color_code : Type := COLOR_BGR2GRAY | COLOR_RGB2GRAY.
Inductive retrieval_mode : Type := RETR_EXTERNAL | RETR_LIST.
Inductive approx_method : Type := CHAIN_APPROX_NONE | CHAIN_APPROX_SIMPLE.

(** The file system as the process sees it: what the two calls return.
    A call that raises is not among the outcomes; the handler has no
    [try], so a request on which [cv2.imread] raises ends in a 500 and is
    not a run of the model. *)
Record host : Type := Host {
  os_path_exists : string -> bool;
  cv2_imread : string -> option bgr_image   (* [None] is the value imread returns on failure *)
}.

(** OpenCV's image operations and the float power of the interpreter.
    [x ** y] on floats gives a float, or no float at all: OverflowError,
    ZeroDivisionError, or a complex number for a negative base with a
    fractional exponent, which [round] then rejects with TypeError. *)
Record lib : Type := Lib {
  cv2_cvtColor : bgr_image -> color_code -> gray_image;
  cv2_GaussianBlur : gray_image -> Z * Z -> Z -> gray_image;
  cv2_Canny : gray_image -> Z -> Z -> gray_image;
  cv2_findContours : gray_image -> retrieval_mode -> approx_method -> list contour * hierarchy;
  cv2_contourArea : contour -> float;
  cv2_minEnclosingCircle : contour -> (float * float) * float;
  float_pow : float -> float -> option float
}.

(** ** Responses

    The body of a 200 response has the keys "dbh", "girth", "height" and
    "canopy"; the last two are [m_height] and [m_canopy] here, next to the
    fields of [coeffs]. *)

Record measurement : Type := Measurement { dbh : float; girth : float; m_height : float; m_canopy : float }.

Inductive response : Type :=
  | Ok200 (body : measurement)       (* jsonify({...}) *)
  | Err400 (error : string)          (* jsonify(error=...), 400 *)
  | Err500.                          (* an exception left the handler *)

(** The error kinds of the specification, by the message the handler sends. *)
Definition MissingInput : response := Err400 "No image_path provided".
Definition NotFound (image_path : string) : response := Err400 ("Image not found: " +:+ image_path).
Definition DecodeError : response := Err400 "Failed to load image".
Definition NoTrunkDetected : response := Err400 "No trunk contour found in image".

(** ** The handler monad: globals threaded, outside calls logged, early return *)

Inductive call : Type :=
  | Call_exists (p : string)
  | Call_imread (p : string)
  | Call_cvtColor
  | Call_GaussianBlur
  | Call_Canny
  | Call_findContours
  | Call_contourArea (c : contour)
  | Call_minEnclosingCircle (c : contour)
  | Call_pow (x y : float).

Record run (A : Type) : Type := Run { trace : list call; out : response + A; final : globals }.
Arguments Run {A} _ _ _.
Arguments trace {A} _.
Arguments out {A} _.
Arguments final {A} _.

Definition M (A : Type) : Type := globals -> run A.

Definition ret {A} (a : A) : M A := fun g => Run [] (inr a) g.

(** [return response] in the middle of the handler, or an exception. *)
Definition exit {A} (r : response) : M A := fun g => Run [] (inl r) g.

Definition bind {A B} (m : M A) (f : A -> M B) : M B :=
  fun g =>
    let r := m g in
    match out r with
    | inl resp => Run (trace r) (inl resp) (final r)
    | inr a => let r' := f a (final r) in Run (trace r ++ trace r') (out r') (final r')
    end.

(** An outside call with its result. *)
Definition extern {A} (c : call) (v : A) : M A := fun g => Run [c] (inr v) g.

Definition tell (cs : list call) : M unit := fun g => Run cs (inr tt) g.

(** Reading the global name [species_coeffs]. *)
Definition load_species_coeffs : M (gmap string coeffs) :=
  fun g => Run [] (inr (cur_species_coeffs g)) g.

#[global] Instance M_ret : MRet M := @ret.
#[global] Instance M_bind : MBind M := fun A B f m => bind m f.

(** What the client receives, with the calls made and the globals left. *)
Record reply : Type := Reply { calls : list call; resp : response; globals_after : globals }.

Definition reply_of (r : run response) : reply :=
  Reply (trace r) (match out r with inl x => x | inr x => x end) (final r).

Definition respond (m : M response) (g : globals) : reply := reply_of (m g).

(** ** Builtins *)

(** [max(it, key=key)] on a non-empty sequence: the first item is taken,
    and a later item replaces it only when its key is strictly greater
    ([val > maxval]). *)
Fixpoint max_loop {A} (key : A -> float) (maxitem : A) (maxval : float) (it : list A) : A :=
  match it with
  | [] => maxitem
  | item :: it' =>
      let val := key item in
      if (maxval <? val)%float then max_loop key item val it'
      else max_loop key maxitem maxval it'
  end.

(** The selection alone; [None] is the ValueError on an empty sequence. *)
Definition first_largest {A} (key : A -> float) (it : list A) : option A :=
  match it with
  | [] => None
  | item :: it' => Some (max_loop key item (key item) it')
  end.

(** [max(it, key=key)] where [key] is an outside function: one call of it
    per item, in order. *)
Definition py_max {A} (called : A -> call) (key : A -> float) (it : list A) : M A :=
  _ ← tell (map called it);
  match first_largest key it with
  | Some item => mret item
  | None => exit Err500
  end.

(** [d[k]] and [d.get(k, default)] with a JSON value as the key: only a
    string can be a key of [species_coeffs]. *)
Definition dict_getitem (d : gmap string coeffs) (k : string) : M coeffs :=
  match d !! k with
  | Some v => ret v
  | None => exit Err500              (* KeyError *)
  end.

Definition dict_get (d : gmap string coeffs) (k : json) (dflt : coeffs) : coeffs :=
  match k with
  | JStr s => default dflt (d !! s)
  | JNull => dflt
  end.

Definition pow (L : lib) (x y : float) : M float :=
  r ← extern (Call_pow x y) (float_pow L x y);
  match r with
  | Some v => ret v
  | None => exit Err500
  end.

(** ** The handler (lines 22-106) *)

Definition qc (H : host) (L : lib) (get_json : option (gmap string json)) : M response :=
  let data := default ∅ get_json in
  let image_path := default JNull (data !! "image_path") in
  let species := default (JStr "Default") (data !! "species") in
  match image_path with
  | JNull | JStr "" => exit (Err400 "No image_path provided")
  | JStr image_path =>
  exists_ ← extern (Call_exists image_path) (os_path_exists H image_path);
  if negb exists_ then exit (Err400 ("Image not found: " +:+ image_path)) else
  image ← extern (Call_imread image_path) (cv2_imread H image_path);
  match image with
  | None => exit (Err400 "Failed to load image")
  | Some image =>
  gray ← extern Call_cvtColor (cv2_cvtColor L image COLOR_BGR2GRAY);
  blurred ← extern Call_GaussianBlur (cv2_GaussianBlur L gray (5, 5) 0);
  edges ← extern Call_Canny (cv2_Canny L blurred 100 200);
  '(contours, _) ← extern Call_findContours
                     (cv2_findContours L edges RETR_EXTERNAL CHAIN_APPROX_SIMPLE);
  match contours with
  | [] => exit (Err400 "No trunk contour found in image")
  | _ :: _ =>
  trunk_contour ← py_max Call_contourArea (cv2_contourArea L) contours;
  '((x, y), radius) ← extern (Call_minEnclosingCircle trunk_contour)
                        (cv2_minEnclosingCircle L trunk_contour);
  let pixel_diameter := (2 * radius)%float in
  let scale_cm_per_pixel := 0.1%float in
  let dbh_cm := (pixel_diameter * scale_cm_per_pixel)%float in
  let girth_cm := (PyFloat.pi * dbh_cm)%float in
  table ← load_species_coeffs;
  dflt ← dict_getitem table "Default";
  let coeffs := dict_get table species dflt in
  let '(a_h, b_h) := height coeffs in
  let '(a_c, b_c) := canopy coeffs in
  p_h ← pow L dbh_cm b_h;
  let height_m := (a_h * p_h)%float in
  p_c ← pow L dbh_cm b_c;
  let canopy_m := (a_c * p_c)%float in
  mret (Ok200 (Measurement (PyFloat.round1 dbh_cm) (PyFloat.round1 girth_cm)
                           (PyFloat.round1 height_m) (PyFloat.round1 canopy_m)))
  end end end.

(** * Vocabulary of the properties *)

(** Lines 58-67 composed: the contours the edge pipeline extracts. *)
Definition edge_contours (L : lib) (image : bgr_image) : list contour :=
  fst (cv2_findContours L
         (cv2_Canny L (cv2_GaussianBlur L (cv2_cvtColor L image COLOR_BGR2GRAY) (5, 5) 0) 100 200)
         RETR_EXTERNAL CHAIN_APPROX_SIMPLE).

(** Lines 41-43: what the handler reads from the body. *)
Definition body_image_path (get_json : option (gmap string json)) : json :=
  default JNull (default ∅ get_json !! "image_path").

Definition body_species (get_json : option (gmap string json)) : json :=
  default (JStr "Default") (default ∅ get_json !! "species").

(** The body [{"image_path": p}] or [{"image_path": p, "species": s}]. *)
Definition post (image_path : string) (species : option string) : option (gmap string json) :=
  Some match species with
       | Some s => <["species" := JStr s]> {["image_path" := JStr image_path]}
       | None => {["image_path" := JStr image_path]}
       end.

(** A body with its species field set. *)
Definition with_species (get_json : option (gmap string json)) (species : json)
  : option (gmap string json) :=
  Some (<["species" := species]> (default ∅ get_json)).

(** The calls made up to and including [cv2.findContours]. *)
Definition pipeline_calls (p : string) : list call :=
  [Call_exists p; Call_imread p; Call_cvtColor; Call_GaussianBlur; Call_Canny; Call_findContours].

(** A run with further calls in front of it. *)
Definition after {A} (t : list call) (r : run A) : run A :=
  Run (t ++ trace r) (out r) (final r).

(** [c] splits [l] into what comes before it, all with a strictly smaller
    key, and what comes after it, none with a larger key. *)
Definition first_largest_at {A} (key : A -> float) (l : list A) (c : A) : Prop :=
  exists before after_,
    l = before ++ c :: after_ /\
    (forall x, In x before -> (key x <? key c)%float = true) /\
    (forall x, In x after_ -> (key x <=? key c)%float = true).

(** ** What is assumed of the libraries *)

(** A radius is not negative. *)
Definition radius_contract (L : lib) : Prop :=
  forall c, PyFloat.nonneg (snd (cv2_minEnclosingCircle L c)).

(** An area is a number. *)
Definition area_contract (L : lib) : Prop :=
  forall c, is_nan (cv2_contourArea L c) = false.

(** A non-negative base raised to a positive exponent is non-negative. *)
Definition pow_contract (L : lib) : Prop :=
  forall x y r,
    PyFloat.nonneg x -> (0 <? y)%float = true -> float_pow L x y = Some r -> PyFloat.nonneg r.

(** The coefficients of a species as the table of the source has them:
    positive factors, positive exponents. *)
Definition coeffs_ok (c : coeffs) : Prop :=
  PyFloat.positive_finite (fst (height c)) /\ (0 <? snd (height c))%float = true /\
  PyFloat.positive_finite (fst (canopy c)) /\ (0 <? snd (canopy c))%float = true.

(** A field of a result as the specification wants it. *)
Definition field_ok (x : float) : Prop := PyFloat.one_decimal x /\ PyFloat.nonneg x.

(** ** The paths through the handler

    Every run of [qc] follows one of the paths below (theorem
    [qc_follows_path]); the properties are read off the path. *)

Section Paths.
Variables (H : host) (L : lib) (body : option (gmap string json)) (g : globals).

Let species := body_species body.
Let table := cur_species_coeffs g.

(** Lines 91-106, from the diameter in centimetres on. *)
Inductive allometry (dbh_cm : float) : list call -> response -> Prop :=
| Allo_key_error :
    table !! "Default" = None ->
    allometry dbh_cm [] Err500
| Allo_height_fails dflt :
    table !! "Default" = Some dflt ->
    let co := dict_get table species dflt in
    float_pow L dbh_cm (snd (height co)) = None ->
    allometry dbh_cm [Call_pow dbh_cm (snd (height co))] Err500
| Allo_canopy_fails dflt p_h :
    table !! "Default" = Some dflt ->
    let co := dict_get table species dflt in
    float_pow L dbh_cm (snd (height co)) = Some p_h ->
    float_pow L dbh_cm (snd (canopy co)) = None ->
    allometry dbh_cm
      [Call_pow dbh_cm (snd (height co)); Call_pow dbh_cm (snd (canopy co))] Err500
| Allo_ok dflt p_h p_c :
    table !! "Default" = Some dflt ->
    let co := dict_get table species dflt in
    float_pow L dbh_cm (snd (height co)) = Some p_h ->
    float_pow L dbh_cm (snd (canopy co)) = Some p_c ->
    allometry dbh_cm
      [Call_pow dbh_cm (snd (height co)); Call_pow dbh_cm (snd (canopy co))]
      (Ok200 (Measurement (PyFloat.round1 dbh_cm)
                          (PyFloat.round1 (PyFloat.pi * dbh_cm))
                          (PyFloat.round1 (fst (height co) * p_h))
                          (PyFloat.round1 (fst (canopy co) * p_c)))).

Inductive qc_path : reply -> Prop :=
| Path_missing :
    truthy (body_image_path body) = false ->
    qc_path (Reply [] MissingInput g)
| Path_not_found p :
    body_image_path body = JStr p -> p <> "" ->
    os_path_exists H p = false ->
    qc_path (Reply [Call_exists p] (NotFound p) g)
| Path_decode_error p :
    body_image_path body = JStr p -> p <> "" ->
    os_path_exists H p = true ->
    cv2_imread H p = None ->
    qc_path (Reply [Call_exists p; Call_imread p] DecodeError g)
| Path_no_contour p image :
    body_image_path body = JStr p -> p <> "" ->
    os_path_exists H p = true ->
    cv2_imread H p = Some image ->
    edge_contours L image = [] ->
    qc_path (Reply (pipeline_calls p) NoTrunkDetected g)
| Path_measured p image trunk_contour center radius t r :
    body_image_path body = JStr p -> p <> "" ->
    os_path_exists H p = true ->
    cv2_imread H p = Some image ->
    first_largest (cv2_contourArea L) (edge_contours L image) = Some trunk_contour ->
    cv2_minEnclosingCircle L trunk_contour = (center, radius) ->
    allometry (2 * radius * 0.1) t r ->
    qc_path (Reply (pipeline_calls p ++ map Call_contourArea (edge_contours L image)
                      ++ Call_minEnclosingCircle trunk_contour :: t) r g).

End Paths.

(** * Fixtures: a small file system and stand-ins for the libraries

    Test doubles to run the handler on: they are not OpenCV, they only have
    its signatures. The areas are exact (shoelace formula), the circle is
    the one around the bounding box, and the powers are those CPython
    returns for the base the fixtures produce. *)

Module Demo.

Definition trunk_photo : bgr_image :=
  [ [(12, 14, 10); (12, 14, 10); (250, 251, 249); (12, 14, 10)];
    [(12, 14, 10); (12, 14, 10); (250, 251, 249); (12, 14, 10)] ].

Definition blank_photo : bgr_image :=
  [ [(90, 90, 90); (90, 90, 90)]; [(90, 90, 90); (90, 90, 90)] ].

(** Path to decoded content; [None] for a file that is not an image. *)
Definition disk : gmap string (option bgr_image) :=
  list_to_map
    [ ("/data/trunk.jpg", Some trunk_photo);
      ("/data/copy.jpg", Some trunk_photo);
      ("/data/blank.jpg", Some blank_photo);
      ("/data/notes.txt", None) ].

Definition files : host :=
  Host (fun p => bool_decide (is_Some (disk !! p)))
       (fun p => match disk !! p with Some (Some image) => Some image | _ => None end).

(** The same photo under another name, on another machine. *)
Definition other_files : host :=
  Host (fun p => String.eqb p "/mnt/upload.jpg")
       (fun p => if String.eqb p "/mnt/upload.jpg" then Some trunk_photo else None).

Definition luminance (px : Z * Z * Z) : Z :=
  let '(b, g, r) := px in (114 * b + 587 * g + 299 * r + 500) / 1000.

Fixpoint row_edges (hi : Z) (row : list Z) : list Z :=
  match row with
  | a :: (b :: _) as tl => (if hi <? Z.abs (b - a) then 255 else 0) :: row_edges hi tl
  | _ => map (fun _ => 0) row
  end.

(** Three outlines: a twig, the trunk (60 by 80), a post of the same
    area (48 by 100) found after it. *)
Definition twig : contour := [(0, 0); (4, 0); (4, 4); (0, 4)].
Definition trunk : contour := [(10, 10); (70, 10); (70, 90); (10, 90)].
Definition fence_post : contour := [(100, 0); (148, 0); (148, 100); (100, 100)].

Definition float_of_Z (z : Z) : float := of_uint63 (Uint63.of_Z z).

Definition cross (p q : Z * Z) : Z := fst p * snd q - fst q * snd p.

Fixpoint shoelace (first : Z * Z) (c : contour) : Z :=
  match c with
  | [] => 0
  | p :: rest =>
      match rest with
      | [] => cross p first
      | q :: _ => cross p q + shoelace first rest
      end
  end.

Definition contourArea (c : contour) : float :=
  match c with
  | [] => 0%float
  | p :: _ => (float_of_Z (Z.abs (shoelace p c)) / 2)%float
  end.

Definition span (zs : list Z) : Z * Z :=
  match zs with
  | [] => (0, 0)
  | z :: rest => (fold_right Z.min z rest, fold_right Z.max z rest)
  end.

Definition minEnclosingCircle (c : contour) : (float * float) * float :=
  let '(x0, x1) := span (map fst c) in
  let '(y0, y1) := span (map snd c) in
  let w := x1 - x0 in
  let h := y1 - y0 in
  ((float_of_Z (x0 + x1) / 2, float_of_Z (y0 + y1) / 2)%float,
   (float_of_Z (Z.sqrt_up (w * w + h * h)) / 2)%float).

(** [10.0 ** y] for the exponents of [species_coeffs]. *)
Definition powers_of_ten : list (float * float) :=
  [ (1.2, 15.848931924611133); (1.5, 31.622776601683793);
    (1.25, 17.78279410038923); (1.4, 25.118864315095795);
    (1.7, 50.11872336272722); (2.0, 100.0);
    (1.778, 59.979107625550945); (1.995, 98.8553094656939);
    (1.465, 29.174270140011675); (1.989, 97.49896377173872) ]%float.

Definition float_pow (x y : float) : option float :=
  if (x =? 10)%float
  then option_map snd (find (fun e => (fst e =? y)%float) powers_of_ten)
  else None.

Definition cv : lib :=
  Lib (fun image _ => map (map luminance) image)
      (fun gray _ _ => gray)
      (fun blurred _ hi => map (row_edges hi) blurred)
      (fun edges _ _ =>
         if existsb (existsb (fun v => negb (v =? 0))) edges
         then ([twig; trunk; fence_post], [])
         else ([], []))
      contourArea
      minEnclosingCircle
      float_pow.

(** What the handler answers on [trunk.jpg] with these stand-ins: for
    the default species, for "Oak". *)
Definition default_result : measurement := Measurement 10.0 31.4 15.8 15.8.
Definition oak_result : measurement := Measurement 10.0 31.4 41.1 11.1.

Definition trunk_request : option (gmap string json) := post "/data/trunk.jpg" None.
Definition oak_request : option (gmap string json) := post "/data/trunk.jpg" (Some "Oak").
Definition blank_request : option (gmap string json) := post "/data/blank.jpg" (Some "Pine").
Definition gone_request : option (gmap string json) := post "/data/gone.jpg" None.

Definition trunk_calls (p : string) : list call :=
  pipeline_calls p
  ++ [Call_contourArea twig; Call_contourArea trunk; Call_contourArea fence_post;
      Call_minEnclosingCircle trunk].

End Demo.

(** * The [/species] endpoint (lines 108-114)

    [get_species] answers with [list(species_coeffs.keys())] and with the
    dictionary itself. A Python dict keeps its entries in insertion order
    and its keys distinct: here it is the list of its items, and
    [dict_of] gives the lookup view the handler [qc] works on. *)

Definition species_coeffs_literal : list (string * coeffs) :=
  [ ("Silver maple", Coeffs (1.50, 1.778) (0.82, 1.995));
    ("Ginkgo",       Coeffs (1.71, 1.465) (0.63, 1.989));
    ("Oak",          Coeffs (1.30, 1.50)  (0.70, 1.20));
    ("Maple",        Coeffs (1.50, 1.70)  (0.80, 2.00));
    ("Pine",         Coeffs (0.80, 1.25)  (0.50, 1.40));
    ("Default",      Coeffs (1.00, 1.200) (0.50, 1.500)) ]%float.

Definition dict_of (items : list (string * coeffs)) : globals :=
  Globals (list_to_map items).

(** The body of the response: the keys "species" and "coefficients". *)
Record species_reply : Type :=
  SpeciesReply { r_species : list string; r_coefficients : list (string * coeffs) }.

Definition get_species (items : list (string * coeffs)) : species_reply :=
  SpeciesReply (map fst items) items.

(** * More fixtures *)

Module Cases.

Definition notes_request : option (gmap string json) := post "/data/notes.txt" None.

(** [{"image_path": null}] *)
Definition null_path_request : option (gmap string json) :=
  Some {["image_path" := JNull]}.

(** [{"image_path": "/data/trunk.jpg", "species": null}] *)
Definition null_species_request : option (gmap string json) :=
  Some (<["species" := JNull]> {["image_path" := JStr "/data/trunk.jpg"]}).

(** The library of [Demo] when only the twig is found: its diameter is
    not a base the stand-in for [**] knows, as if the power overflowed. *)
Definition twig_cv : lib :=
  Lib (cv2_cvtColor Demo.cv) (cv2_GaussianBlur Demo.cv) (cv2_Canny Demo.cv)
      (fun _ _ _ => ([Demo.twig], []))
      (cv2_contourArea Demo.cv) (cv2_minEnclosingCircle Demo.cv) (float_pow Demo.cv).

(** A table without the "Default" entry, and one with another "Pine". *)
Definition no_default : globals :=
  Globals {["Oak" := Coeffs (1.30, 1.50) (0.70, 1.20)]}%float.

Definition other_pine : globals :=
  Globals (<["Pine" := Coeffs (0.90, 1.25) (0.50, 1.40)]> species_coeffs)%float.

(** Another photo of the trunk, on another host. *)
Definition side_photo : bgr_image :=
  [ [(245, 244, 246); (16, 12, 11); (245, 244, 246)] ].

Definition side_files : host :=
  Host (fun p => String.eqb p "/data/side.jpg")
       (fun p => if String.eqb p "/data/side.jpg" then Some side_photo else None).

Definition side_request : option (gmap string json) := post "/data/side.jpg" None.

End Cases.

(** * Lemmas *)

(** ** Steps of the handler monad *)

Section Steps.
Context {A B : Type}.
Implicit Types (f : A -> M B) (g : globals).

Lemma bind_extern c (v : A) f g : (extern c v ≫= f) g = after [c] (f v g).
Proof. reflexivity. Qed.

Lemma bind_ret (v : A) f g : (ret v ≫= f) g = after [] (f v g).
Proof. reflexivity. Qed.

Lemma bind_mret (v : A) f g : (mret v ≫= f) g = after [] (f v g).
Proof. reflexivity. Qed.

Lemma bind_load (k : gmap string coeffs -> M B) g :
  (load_species_coeffs ≫= k) g = after [] (k (cur_species_coeffs g) g).
Proof. reflexivity. Qed.

Lemma bind_tell cs (k : unit -> M B) g : (tell cs ≫= k) g = after cs (k tt g).
Proof. reflexivity. Qed.

Lemma bind_bind {C} (m : M C) (h : C -> M A) f g :
  ((m ≫= h) ≫= f) g = (m ≫= (fun c => h c ≫= f)) g.
Proof.
  unfold mbind, M_bind, bind. destruct (m g) as [t [r|c] g1]; simpl; [reflexivity|].
  destruct (h c g1) as [t2 [r|a] g2]; simpl; [reflexivity|].
  now rewrite app_assoc.
Qed.

End Steps.

(** ** Every run follows a path *)

Section Follows.
Variables (H : host) (L : lib) (body : option (gmap string json)) (g : globals).

Let species := body_species body.
Let table := cur_species_coeffs g.

Theorem qc_follows_path : qc_path H L body g (respond (qc H L body) g).
Proof.
  unfold qc, respond. fold (body_image_path body) (body_species body). fold species.
  destruct (body_image_path body) as [|p] eqn:Hp; [apply Path_missing; now rewrite Hp|].
  destruct p as [|a p']; [apply Path_missing; now rewrite Hp|].
  set (p := String a p') in *.
  assert (Hne : p <> "") by discriminate.
  rewrite bind_extern.
  destruct (os_path_exists H p) eqn:Hex; cbn [negb]; [|now apply Path_not_found].
  rewrite bind_extern.
  destruct (cv2_imread H p) as [image|] eqn:Him; [|now apply Path_decode_error].
  do 4 rewrite bind_extern.
  pose proof (eq_refl (edge_contours L image)) as Hcs. unfold edge_contours at 2 in Hcs.
  destruct (cv2_findContours _ _ _ _) as [contours hier]. cbn [fst] in Hcs.
  destruct contours as [|c0 rest]; [eapply Path_no_contour; eassumption|].
  unfold py_max. rewrite bind_bind, bind_tell.
  destruct (first_largest (cv2_contourArea L) (c0 :: rest)) as [trunk_contour|] eqn:Hmax;
    [|discriminate].
  rewrite bind_mret, bind_extern.
  destruct (cv2_minEnclosingCircle L trunk_contour) as [[x y] radius] eqn:Hcirc.
  rewrite <- Hcs in Hmax |- *. clear Hcs.
  rewrite bind_load. fold table. unfold dict_getitem.
  destruct (table !! "Default") as [dflt|] eqn:Hd.
  2:{ apply (Path_measured H L body g p image trunk_contour (x, y) radius [] Err500); try assumption.
       now apply Allo_key_error. }
  rewrite bind_ret.
  destruct (height (dict_get table species dflt)) as [a_h b_h] eqn:Hh.
  destruct (canopy (dict_get table species dflt)) as [a_c b_c] eqn:Hc.
  assert (Eah : a_h = fst (height (dict_get table species dflt))) by now rewrite Hh.
  assert (Ebh : b_h = snd (height (dict_get table species dflt))) by now rewrite Hh.
  assert (Eac : a_c = fst (canopy (dict_get table species dflt))) by now rewrite Hc.
  assert (Ebc : b_c = snd (canopy (dict_get table species dflt))) by now rewrite Hc.
  clear Hh Hc.
  unfold pow. rewrite bind_bind, bind_extern.
  destruct (float_pow L _ b_h) as [p_h|] eqn:Hph.
  2:{ subst b_h.
      eapply (Path_measured H L body g p image trunk_contour (x, y) radius [_] Err500); try assumption.
       eapply Allo_height_fails; eassumption. }
  rewrite bind_ret, bind_bind, bind_extern.
  destruct (float_pow L _ b_c) as [p_c|] eqn:Hpc.
  2:{ subst b_h b_c.
      eapply (Path_measured H L body g p image trunk_contour (x, y) radius [_; _] Err500); try assumption.
       eapply Allo_canopy_fails; eassumption. }
  rewrite bind_ret. subst a_h b_h a_c b_c.
  eapply (Path_measured H L body g p image trunk_contour (x, y) radius [_; _] (Ok200 _)); try assumption.
  eapply Allo_ok; eassumption.
Qed.

End Follows.

(** ** Facts on binary64 values *)

Module FloatFacts.
Import PyFloat.

Lemma nonneg_spec x : nonneg x <-> sf_nonneg (Prim2SF x) = true.
Proof.
  unfold nonneg. rewrite FloatAxioms.leb_spec. change (Prim2SF 0) with (S754_zero false).
  destruct (Prim2SF x) as [[]|[]| |[] m e]; cbv [SFleb SFcompare sf_nonneg];
    split; congruence.
Qed.

(** Rounding a non-negative mantissa never changes the sign and never
    gives NaN. *)
Lemma shr_1_nonneg mrs : 0 <= shr_m mrs -> 0 <= shr_m (shr_1 mrs).
Proof. destruct mrs as [m r s]; destruct m as [|[p|p|]|[p|p|]]; simpl; lia. Qed.

Lemma iter_pos_keeps {A} (P : A -> Prop) (f : A -> A) :
  (forall x, P x -> P (f x)) -> forall n x, P x -> P (SpecFloat.iter_pos f n x).
Proof. intros Hf. induction n; simpl; auto. Qed.

Lemma shr_nonneg mrs e n : 0 <= shr_m mrs -> 0 <= shr_m (fst (shr mrs e n)).
Proof.
  intros Hm. destruct n; simpl; try assumption.
  apply (iter_pos_keeps (fun r => 0 <= shr_m r)); [apply shr_1_nonneg|assumption].
Qed.

Lemma shr_fexp_nonneg m e l : 0 <= m -> 0 <= shr_m (fst (shr_fexp prec emax m e l)).
Proof.
  intros Hm. unfold shr_fexp. apply shr_nonneg. now destruct l as [|[]].
Qed.

Lemma round_nearest_even_nonneg m l : 0 <= m -> 0 <= round_nearest_even m l.
Proof. intros Hm. destruct l as [|[]]; simpl; try lia. destruct (Z.even m); lia. Qed.

Lemma binary_round_aux_nonneg m e l :
  0 <= m -> sf_nonneg (binary_round_aux prec emax false m e l) = true.
Proof.
  intros Hm. unfold binary_round_aux.
  pose proof (shr_fexp_nonneg m e l Hm) as H1.
  destruct (shr_fexp prec emax m e l) as [mrs' e']. simpl in H1.
  pose proof (shr_fexp_nonneg (round_nearest_even (shr_m mrs') (loc_of_shr_record mrs'))
                e' loc_Exact (round_nearest_even_nonneg _ _ H1)) as H2.
  destruct (shr_fexp prec emax _ e' loc_Exact) as [mrs'' e'']. simpl in H2.
  destruct (shr_m mrs'') as [|q|q]; [reflexivity| |lia].
  now destruct (e'' <=? emax - prec).
Qed.

Lemma binary_round_nonneg m e : sf_nonneg (binary_round prec emax false m e) = true.
Proof.
  unfold binary_round. destruct (shl_align _ _ _) as [mz ez].
  now apply binary_round_aux_nonneg.
Qed.

(** A non-negative value times a positive finite one is non-negative. *)
Lemma SF64mul_nonneg_l x y :
  sf_nonneg x = true -> sf_pos y = true -> sf_nonneg (SF64mul x y) = true.
Proof.
  destruct x as [[]|[]| |[] mx ex], y as [[]|[]| |[] my ey]; try discriminate;
    intros _ _; try reflexivity.
  now apply binary_round_aux_nonneg.
Qed.

Lemma SF64mul_nonneg_r x y :
  sf_pos x = true -> sf_nonneg y = true -> sf_nonneg (SF64mul x y) = true.
Proof.
  destruct x as [[]|[]| |[] mx ex], y as [[]|[]| |[] my ey]; try discriminate;
    intros _ _; try reflexivity.
  now apply binary_round_aux_nonneg.
Qed.

Lemma mul_nonneg_l (x c : float) :
  nonneg x -> positive_finite c -> nonneg (x * c).
Proof.
  unfold positive_finite. rewrite !nonneg_spec, FloatAxioms.mul_spec. apply SF64mul_nonneg_l.
Qed.

Lemma mul_nonneg_r (c x : float) :
  positive_finite c -> nonneg x -> nonneg (c * x).
Proof.
  unfold positive_finite. rewrite !nonneg_spec, FloatAxioms.mul_spec. apply SF64mul_nonneg_r.
Qed.

(** The conversion back to a primitive float keeps a non-negative sign. *)
Lemma SF2Prim_nonneg y : sf_nonneg y = true -> nonneg (SF2Prim y).
Proof.
  destruct y as [[]|[]| |[] m e]; try discriminate; intros _; try reflexivity.
  apply nonneg_spec. unfold SF2Prim, FloatOps.Z.ldexp.
  rewrite FloatAxioms.ldshiftexp_spec, FloatAxioms.of_uint63_spec.
  destruct (to_Z_bounded (of_Z (Z.pos m))) as [Hm _].
  destruct (to_Z (of_Z (Z.pos m))) as [|q|q]; [reflexivity| |lia].
  unfold binary_normalize.
  pose proof (binary_round_nonneg q 0) as Hq.
  destruct (binary_round prec emax false q 0) as [[]|[]| |[] m' e']; try discriminate;
    try reflexivity.
  apply binary_round_nonneg.
Qed.

(** A non-negative value over a positive finite one is non-negative. *)
Lemma SF64div_nonneg x y :
  sf_nonneg x = true -> sf_pos y = true -> sf_nonneg (SF64div x y) = true.
Proof.
  destruct x as [[]|[]| |[] mx ex], y as [[]|[]| |[] my ey]; try discriminate;
    intros _ _; try reflexivity.
  unfold SF64div, SFdiv, SFdiv_core_binary.
  set (s := _ - _ - _). set (m' := match s with Z0 => _ | Zpos _ => _ | Zneg _ => _ end).
  assert (Hm' : 0 <= m').
  { subst m'. destruct s; [lia| |lia]. apply Z.shiftl_nonneg. lia. }
  pose proof (Z.div_pos m' (Z.pos my) Hm' ltac:(lia)) as Hq. unfold Z.div in Hq.
  destruct (Z.div_eucl m' (Z.pos my)) as [q r]. simpl in Hq.
  now apply binary_round_aux_nonneg.
Qed.

Lemma div_nonneg (x c : float) :
  nonneg x -> positive_finite c -> nonneg (x / c).
Proof.
  unfold positive_finite. rewrite !nonneg_spec, FloatAxioms.div_spec. apply SF64div_nonneg.
Qed.

Lemma of_uint63_nonneg n : nonneg (of_uint63 n).
Proof.
  apply nonneg_spec. rewrite FloatAxioms.of_uint63_spec.
  destruct (to_Z_bounded n) as [Hn _].
  destruct (to_Z n) as [|q|q]; [reflexivity| |lia].
  apply binary_round_nonneg.
Qed.

Lemma of_tenths_nonneg n : sf_nonneg (of_tenths false n) = true.
Proof.
  destruct n as [|p]; [reflexivity|]. now apply SF64div_nonneg.
Qed.

(** [tenths m e] is the whole number nearest to ten times [m * 2^e], the
    even one of the two when it lies half-way. *)
Lemma tenths_nearest m e :
  let n := Z.of_N (tenths m e) in
  match e with
  | Zneg k =>
      let d := Z.pow_pos 2 k in
      2 * Z.abs (n * d - 10 * Zpos m) <= d /\
      (2 * Z.abs (n * d - 10 * Zpos m) = d -> Z.even n = true)
  | _ => n = 10 * Zpos m * 2 ^ e
  end.
Proof.
  unfold tenths. destruct e as [|k|k]; cbv zeta.
  - rewrite Z2N.id; lia.
  - rewrite Z2N.id; [reflexivity|]. apply Z.mul_nonneg_nonneg; [lia|]. apply Z.pow_nonneg. lia.
  - set (d := Z.pow_pos 2 k).
    assert (Hd : 0 < d) by (subst d; rewrite Z.pow_pos_fold; apply Z.pow_pos_nonneg; lia).
    pose proof (Z.div_mod (10 * Zpos m) d ltac:(lia)) as Hqr.
    pose proof (Z.mod_pos_bound (10 * Zpos m) d Hd) as Hr.
    assert (Hq : 0 <= 10 * Zpos m / d) by (apply Z.div_pos; lia).
    set (q := 10 * Zpos m / d) in *. set (r := (10 * Zpos m) mod d) in *.
    destruct (Z.compare_spec (2 * r) d) as [Heq|Hlt|Hgt].
    + destruct (Z.even q) eqn:Hev; rewrite Z2N.id by lia; split; try nia.
      * intros _. assumption.
      * intros _. rewrite Z.even_add, Hev. reflexivity.
    + rewrite Z2N.id by lia. split; nia.
    + rewrite Z2N.id by lia. split; nia.
Qed.

Lemma round1_nonneg x : nonneg x -> nonneg (round1 x).
Proof.
  intros Hx. pose proof Hx as Hs. apply nonneg_spec in Hs. unfold round1.
  destruct (Prim2SF x) as [s|s| |s m e]; try assumption.
  destruct s; [discriminate|].
  apply SF2Prim_nonneg, of_tenths_nonneg.
Qed.

Lemma round1_one_decimal x : one_decimal (round1 x).
Proof.
  unfold one_decimal, round1.
  destruct (Prim2SF x) as [s|s| |s m e] eqn:E.
  - intros _. exists s, 0%N. cbn [of_tenths]. now rewrite <- E, SF2Prim_Prim2SF.
  - unfold finiteb. now rewrite E.
  - unfold finiteb. now rewrite E.
  - intros _. now exists s, (tenths m e).
Qed.

(** *** The order on floats that are not NaN *)

Lemma is_nan_spec x : is_nan x = sf_is_nan (Prim2SF x).
Proof.
  unfold is_nan. rewrite FloatAxioms.eqb_spec. unfold SFeqb, SFcompare.
  destruct (Prim2SF x) as [[]|[]| |[] m e]; try reflexivity;
    now rewrite Z.compare_refl, Pos.compare_cont_refl.
Qed.

Lemma nonneg_not_nan x : nonneg x -> is_nan x = false.
Proof.
  rewrite nonneg_spec, is_nan_spec. now destruct (Prim2SF x) as [[]|[]| |[] m e].
Qed.

Ltac sf_order :=
  unfold SFltb, SFleb, SFcompare;
  repeat match goal with
    | x : spec_float |- _ => destruct x as [[]|[]| |[] ? ?]
    end;
  simpl; try discriminate; try reflexivity; intros;
  repeat match goal with
    | H : context [Z.compare ?a ?b] |- _ => destruct (Z.compare_spec a b); simpl in H
    | |- context [Z.compare ?a ?b] => destruct (Z.compare_spec a b); simpl
    end;
  try discriminate; try reflexivity; try lia;
  change (Pos.compare_cont Eq) with Pos.compare in *;
  repeat match goal with
    | H : context [Pos.compare ?a ?b] |- _ => destruct (Pos.compare_spec a b); simpl in H
    | |- context [Pos.compare ?a ?b] => destruct (Pos.compare_spec a b); simpl
    end;
  try discriminate; try reflexivity; try lia.

Lemma SFltb_trans x y z : SFltb x y = true -> SFltb y z = true -> SFltb x z = true.
Proof. sf_order. Qed.

Lemma SFleb_ltb_trans x y z : SFleb x y = true -> SFltb y z = true -> SFltb x z = true.
Proof. sf_order. Qed.

Lemma SFltb_false_leb x y :
  sf_is_nan x = false -> sf_is_nan y = false -> SFltb x y = false -> SFleb y x = true.
Proof. sf_order. Qed.

Lemma ltb_trans (x y z : float) :
  (x <? y)%float = true -> (y <? z)%float = true -> (x <? z)%float = true.
Proof. rewrite !FloatAxioms.ltb_spec. apply SFltb_trans. Qed.

Lemma leb_ltb_trans (x y z : float) :
  (x <=? y)%float = true -> (y <? z)%float = true -> (x <? z)%float = true.
Proof. rewrite FloatAxioms.leb_spec, !FloatAxioms.ltb_spec. apply SFleb_ltb_trans. Qed.

Lemma ltb_false_leb (x y : float) :
  is_nan x = false -> is_nan y = false -> (x <? y)%float = false -> (y <=? x)%float = true.
Proof. rewrite !is_nan_spec, FloatAxioms.leb_spec, FloatAxioms.ltb_spec. apply SFltb_false_leb. Qed.

End FloatFacts.

(** ** [max] with a key: the first of the largest *)

Section FirstLargest.
Context {A : Type} (key : A -> float).

Lemma max_loop_spec (it : list A) : forall maxitem c,
  is_nan (key maxitem) = false ->
  (forall x, In x it -> is_nan (key x) = false) ->
  max_loop key maxitem (key maxitem) it = c ->
  (c = maxitem /\ forall x, In x it -> (key x <=? key maxitem)%float = true) \/
  (exists before after_,
      it = before ++ c :: after_ /\
      (key maxitem <? key c)%float = true /\
      (forall x, In x before -> (key x <? key c)%float = true) /\
      (forall x, In x after_ -> (key x <=? key c)%float = true)).
Proof.
  induction it as [|item it' IH]; intros maxitem c Hm Hit Hc; simpl in Hc.
  - left. split; [now symmetry|intros x []].
  - assert (Hitem : is_nan (key item) = false) by (apply Hit; now left).
    assert (Hit' : forall x, In x it' -> is_nan (key x) = false)
      by (intros x Hx; apply Hit; now right).
    destruct (key maxitem <? key item)%float eqn:Hlt.
    + right. destruct (IH item c Hitem Hit' Hc) as [[E Hle]|(b & a & E & Hlt' & Hb & Ha)].
      * rewrite E in *. exists [], it'.
        split; [reflexivity|]. split; [assumption|]. split; [intros x []|assumption].
      * exists (item :: b), a. rewrite E.
        split; [reflexivity|]. split; [|split; [|assumption]].
        -- eapply FloatFacts.ltb_trans; eassumption.
        -- intros x [<-|Hx]; [assumption|now apply Hb].
    + pose proof (FloatFacts.ltb_false_leb _ _ Hm Hitem Hlt) as Hle.
      destruct (IH maxitem c Hm Hit' Hc) as [[E Hle']|(b & a & E & Hlt' & Hb & Ha)].
      * left. split; [assumption|]. intros x [<-|Hx]; [assumption|now apply Hle'].
      * right. exists (item :: b), a. rewrite E.
        split; [reflexivity|]. split; [assumption|]. split; [|assumption].
        intros x [<-|Hx]; [|now apply Hb].
        eapply FloatFacts.leb_ltb_trans; eassumption.
Qed.

Lemma first_largest_spec (l : list A) (c : A) :
  (forall x, In x l -> is_nan (key x) = false) ->
  first_largest key l = Some c ->
  first_largest_at key l c.
Proof.
  destruct l as [|item it]; [discriminate|]. intros Hnan [= Hc].
  destruct (max_loop_spec it item c) as [[E Hle]|(b & a & E & Hlt & Hb & Ha)];
    try assumption.
  - apply Hnan. now left.
  - intros x Hx. apply Hnan. now right.
  - rewrite E in *. exists [], it. split; [reflexivity|]. split; [intros x []|assumption].
  - exists (item :: b), a. rewrite E. split; [reflexivity|]. split; [|assumption].
    intros x [<-|Hx]; [assumption|now apply Hb].
Qed.

End FirstLargest.

(** ** The table of the source *)

Lemma species_coeffs_ok k c : species_coeffs !! k = Some c -> coeffs_ok c.
Proof.
  intros Hk. apply elem_of_list_to_map_2 in Hk.
  repeat (apply elem_of_cons in Hk as [[= -> ->]|Hk]; [repeat split; reflexivity|]).
  now apply elem_of_nil in Hk.
Qed.

Lemma dict_get_in_table (table : gmap string coeffs) species dflt :
  table !! "Default" = Some dflt ->
  exists k, table !! k = Some (dict_get table species dflt).
Proof.
  intros Hd. destruct species as [|s]; simpl; [now exists "Default"|].
  destruct (table !! s) as [c|] eqn:Hs; simpl; [now exists s|now exists "Default"].
Qed.

(** ** The fixtures keep the contracts *)

Lemma demo_radius_contract : radius_contract Demo.cv.
Proof.
  intros c. simpl. unfold Demo.minEnclosingCircle.
  destruct (Demo.span (map fst c)) as [x0 x1], (Demo.span (map snd c)) as [y0 y1]. simpl.
  apply FloatFacts.div_nonneg; [apply FloatFacts.of_uint63_nonneg|reflexivity].
Qed.

Lemma demo_area_contract : area_contract Demo.cv.
Proof.
  intros c. simpl. apply FloatFacts.nonneg_not_nan. destruct c as [|p c]; [reflexivity|].
  apply FloatFacts.div_nonneg; [apply FloatFacts.of_uint63_nonneg|reflexivity].
Qed.

Lemma demo_pow_contract : pow_contract Demo.cv.
Proof.
  intros x y r _ _. simpl. unfold Demo.float_pow.
  destruct (x =? 10)%float; [|discriminate].
  destruct (find _ _) as [[e v]|] eqn:Hf; [|discriminate]. intros [= <-].
  apply find_some in Hf as [Hin _].
  assert (Hall : Forall (fun e => PyFloat.nonneg (snd e)) Demo.powers_of_ten)
    by (repeat constructor).
  rewrite Forall_forall in Hall. exact (Hall _ (proj2 (list_elem_of_In _ _) Hin)).
Qed.

(** ** Reading a run off its path *)

Lemma truthy_nonempty p : p <> "" -> truthy (JStr p) = true.
Proof. intros Hp. simpl. now apply negb_true_iff, String.eqb_neq. Qed.

Lemma body_image_path_post p sp : body_image_path (post p sp) = JStr p.
Proof.
  unfold body_image_path, post. destruct sp as [s|]; simpl.
  - now rewrite lookup_insert_ne, lookup_singleton_eq.
  - now rewrite lookup_singleton_eq.
Qed.

Lemma body_image_path_with_species body v :
  body_image_path (with_species body v) = body_image_path body.
Proof. unfold body_image_path, with_species. simpl. now rewrite lookup_insert_ne. Qed.

Lemma body_species_with_species body v : body_species (with_species body v) = v.
Proof. unfold body_species, with_species. simpl. now rewrite lookup_insert_eq. Qed.

(** A successful run went through the whole handler. *)
Lemma qc_ok_inv H L body g m :
  resp (respond (qc H L body) g) = Ok200 m ->
  exists p image trunk_contour center radius dflt p_h p_c,
    body_image_path body = JStr p /\ p <> "" /\
    os_path_exists H p = true /\ cv2_imread H p = Some image /\
    first_largest (cv2_contourArea L) (edge_contours L image) = Some trunk_contour /\
    cv2_minEnclosingCircle L trunk_contour = (center, radius) /\
    cur_species_coeffs g !! "Default" = Some dflt /\
    let dbh_cm := (2 * radius * 0.1)%float in
    let co := dict_get (cur_species_coeffs g) (body_species body) dflt in
    float_pow L dbh_cm (snd (height co)) = Some p_h /\
    float_pow L dbh_cm (snd (canopy co)) = Some p_c /\
    m = Measurement (PyFloat.round1 dbh_cm) (PyFloat.round1 (PyFloat.pi * dbh_cm))
                    (PyFloat.round1 (fst (height co) * p_h))
                    (PyFloat.round1 (fst (canopy co) * p_c)).
Proof.
  intros Hm. pose proof (qc_follows_path H L body g) as P.
  destruct P as [?|p ? ? ?|p ? ? ? ?|p image ? ? ? ? ?|p image c center radius t r Hp Hne Hex Him Hc Hcirc Hal];
    try discriminate.
  simpl in Hm. subst r.
  inversion Hal as [| | |dflt p_h p_c Hd co Hph Hpc]; subst.
  exists p, image, c, center, radius, dflt, p_h, p_c. now repeat split.
Qed.

(** With a path given and present on disk, the run gets as far as decoding;
    with an image decoded, as far as the contours. *)
Section Forward.
Variables (H : host) (L : lib) (body : option (gmap string json)) (g : globals).
Variable p : string.
Hypothesis Hp : body_image_path body = JStr p.
Hypothesis Hne : p <> "".

Lemma qc_not_found_run :
  os_path_exists H p = false ->
  respond (qc H L body) g = Reply [Call_exists p] (NotFound p) g.
Proof.
  intros Hex. pose proof (truthy_nonempty p Hne) as Ht.
  destruct (qc_follows_path H L body g) as [?|q ? ? ?|q ? ? ? ?|q ? ? ? ? ? ?|q ? ? ? ? ? ? ? ? ? ? ? ? ?];
    try (assert (q = p) as -> by congruence); try congruence.
Qed.

Lemma qc_no_contour_run image :
  os_path_exists H p = true -> cv2_imread H p = Some image ->
  edge_contours L image = [] ->
  respond (qc H L body) g = Reply (pipeline_calls p) NoTrunkDetected g.
Proof.
  intros Hex Him Hcs. pose proof (truthy_nonempty p Hne) as Ht.
  destruct (qc_follows_path H L body g) as [?|q ? ? ?|q ? ? ? ?|q ? ? ? ? ? ?|q im c ? ? ? ? ? ? ? ? Hc ? ?];
    try (assert (q = p) as -> by congruence); try congruence.
  assert (im = image) as -> by congruence. rewrite Hcs in Hc. discriminate.
Qed.

Lemma qc_measured_run image :
  os_path_exists H p = true -> cv2_imread H p = Some image ->
  edge_contours L image <> [] ->
  exists trunk_contour t r,
    first_largest (cv2_contourArea L) (edge_contours L image) = Some trunk_contour /\
    Forall (fun c => exists x y, c = Call_pow x y) t /\
    respond (qc H L body) g =
    Reply (pipeline_calls p ++ map Call_contourArea (edge_contours L image)
             ++ Call_minEnclosingCircle trunk_contour :: t) r g.
Proof.
  intros Hex Him Hcs. pose proof (truthy_nonempty p Hne) as Ht.
  destruct (qc_follows_path H L body g) as [?|q ? ? ?|q ? ? ? ?|q im ? ? ? ? Hnil|q im c ? ? t r ? ? ? ? Hc ? Hal];
    try (assert (q = p) as -> by congruence); try congruence.
  assert (im = image) as -> by congruence. exists c, t, r.
  split; [assumption|]. split; [|reflexivity].
  destruct Hal; repeat constructor; eauto.
Qed.

End Forward.

(** Two bodies with the same path and the same selected coefficients are
    served alike. *)
Lemma qc_ext H L b1 b2 g :
  body_image_path b1 = body_image_path b2 ->
  (forall dflt, cur_species_coeffs g !! "Default" = Some dflt ->
     dict_get (cur_species_coeffs g) (body_species b1) dflt =
     dict_get (cur_species_coeffs g) (body_species b2) dflt) ->
  qc H L b1 g = qc H L b2 g.
Proof.
  intros Hpath Hsel. unfold qc.
  fold (body_image_path b1) (body_species b1) (body_image_path b2) (body_species b2).
  rewrite Hpath. destruct (body_image_path b2) as [|[|a p']]; try reflexivity.
  rewrite !bind_extern. destruct (os_path_exists H _); [|reflexivity]. cbn [negb].
  rewrite !bind_extern. destruct (cv2_imread H _) as [image|]; [|reflexivity].
  rewrite !bind_extern. destruct (cv2_findContours _ _ _ _) as [[|c0 rest] hier]; [reflexivity|].
  unfold py_max. rewrite !bind_bind, !bind_tell.
  destruct (first_largest _ _) as [trunk_contour|]; [|reflexivity].
  rewrite !bind_mret, !bind_extern.
  destruct (cv2_minEnclosingCircle L trunk_contour) as [[x y] radius].
  rewrite !bind_load. unfold dict_getitem.
  destruct (cur_species_coeffs g !! "Default") as [dflt|] eqn:Hd; [|reflexivity].
  rewrite !bind_ret, (Hsel dflt eq_refl). reflexivity.
Qed.

(** The handler never writes the globals. *)
Lemma qc_globals_after H L body g : globals_after (respond (qc H L body) g) = g.
Proof. now destruct (qc_follows_path H L body g). Qed.

(** * The properties of the estimator *)

(** C1. For every successful estimate, the reported trunk diameter is the
    diameter in pixels of the minimum enclosing circle of the selected
    contour, [2 * radius], times the scale constant 0.1 cm per pixel,
    rounded to one decimal place. The selected contour is the one [max]
    returns on the contours of the decoded image. *)
Theorem qc_dbh_is_scaled_circle_diameter H L body g m :
  resp (respond (qc H L body) g) = Ok200 m ->
  exists p image trunk_contour center radius,
    body_image_path body = JStr p /\
    cv2_imread H p = Some image /\
    first_largest (cv2_contourArea L) (edge_contours L image) = Some trunk_contour /\
    cv2_minEnclosingCircle L trunk_contour = (center, radius) /\
    dbh m = PyFloat.round1 (2 * radius * 0.1).
Proof.
  intros Hm.
  destruct (qc_ok_inv _ _ _ _ _ Hm)
    as (p & image & c & center & radius & dflt & p_h & p_c & Hp & _ & _ & Him & Hc & Hcirc & _ & _ & _ & ->).
  now exists p, image, c, center, radius.
Qed.

(** C2. For every successful estimate, girth = pi * dbh holds on the
    diameter before rounding, and the two output fields are the
    one-decimal roundings of the two sides. *)
Theorem qc_girth_is_pi_times_dbh H L body g m :
  resp (respond (qc H L body) g) = Ok200 m ->
  exists dbh_cm girth_cm,
    girth_cm = (PyFloat.pi * dbh_cm)%float /\
    dbh m = PyFloat.round1 dbh_cm /\
    girth m = PyFloat.round1 girth_cm.
Proof.
  intros Hm.
  destruct (qc_ok_inv _ _ _ _ _ Hm)
    as (p & image & c & center & radius & dflt & p_h & p_c & _ & _ & _ & _ & _ & _ & _ & _ & _ & ->).
  now exists (2 * radius * 0.1)%float, (PyFloat.pi * (2 * radius * 0.1))%float.
Qed.

(** C3. For every successful estimate, with [co] the coefficients selected
    for the species and [dbh_cm] the computed diameter, that is
    [2 * radius * 0.1] for the radius of the circle around the selected
    contour, before any rounding: the height is
    [heightA * dbh_cm ** heightB] and the canopy
    [canopyA * dbh_cm ** canopyB], each rounded to one decimal place. A
    successful estimate is one where both powers are floats, which is the
    case of a non-negative [dbh_cm]. *)
Theorem qc_height_canopy_power_law H L body g m :
  resp (respond (qc H L body) g) = Ok200 m ->
  exists p image trunk_contour center radius dflt p_h p_c,
    body_image_path body = JStr p /\
    cv2_imread H p = Some image /\
    first_largest (cv2_contourArea L) (edge_contours L image) = Some trunk_contour /\
    cv2_minEnclosingCircle L trunk_contour = (center, radius) /\
    cur_species_coeffs g !! "Default" = Some dflt /\
    let dbh_cm := (2 * radius * 0.1)%float in
    let co := dict_get (cur_species_coeffs g) (body_species body) dflt in
    float_pow L dbh_cm (snd (height co)) = Some p_h /\
    float_pow L dbh_cm (snd (canopy co)) = Some p_c /\
    m_height m = PyFloat.round1 (fst (height co) * p_h) /\
    m_canopy m = PyFloat.round1 (fst (canopy co) * p_c).
Proof.
  intros Hm.
  destruct (qc_ok_inv _ _ _ _ _ Hm)
    as (p & image & c & center & radius & dflt & p_h & p_c
        & Hp & _ & _ & Him & Hc & Hcirc & Hd & Hph & Hpc & ->).
  exists p, image, c, center, radius, dflt, p_h, p_c.
  repeat (split; [assumption|]). split; reflexivity.
Qed.

(** C4. For every species string that is not a key of the coefficient
    table, the estimate is the one of species "Default" on the same
    request: same response, same calls, same globals. *)
Theorem qc_unknown_species_is_default H L body g species :
  cur_species_coeffs g !! species = None ->
  respond (qc H L (with_species body (JStr species))) g =
  respond (qc H L (with_species body (JStr "Default"))) g.
Proof.
  intros Hnone. unfold respond.
  rewrite (qc_ext H L (with_species body (JStr species)) (with_species body (JStr "Default")) g);
    [reflexivity| |].
  - now rewrite !body_image_path_with_species.
  - intros dflt Hd. rewrite !body_species_with_species. simpl. now rewrite Hnone, Hd.
Qed.

(** C5. Among the extracted contours the estimate measures exactly one,
    and it is the first of those of largest area: every contour found
    before it has a strictly smaller area, none found after it a larger
    one. Areas are numbers (not NaN). *)
Theorem qc_selects_first_largest_contour H L body g p image :
  area_contract L ->
  body_image_path body = JStr p -> p <> "" ->
  os_path_exists H p = true -> cv2_imread H p = Some image ->
  edge_contours L image <> [] ->
  exists trunk_contour,
    first_largest_at (cv2_contourArea L) (edge_contours L image) trunk_contour /\
    forall c, In (Call_minEnclosingCircle c) (calls (respond (qc H L body) g))
              <-> c = trunk_contour.
Proof.
  intros Harea Hp Hne Hex Him Hcs.
  destruct (qc_measured_run H L body g p Hp Hne image Hex Him Hcs)
    as (c & t & r & Hc & Ht & ->).
  exists c. split.
  - apply first_largest_spec; [|assumption]. intros x _. apply Harea.
  - intros c'. simpl. split.
    + intros [E|[E|[E|[E|[E|[E|Hin]]]]]]; try discriminate.
      apply in_app_or in Hin as [Hin|[[= ->]|Hin]]; [|reflexivity|].
      * apply in_map_iff in Hin as (x & E & _). discriminate.
      * rewrite Forall_forall in Ht.
        destruct (Ht _ (proj2 (list_elem_of_In _ _) Hin)) as (x & y & E). discriminate.
    + intros ->. do 6 right. apply in_or_app. right. now left.
Qed.

(** C6, as amended. For every non-empty path that does not reference an
    existing file, the estimate is the NotFound error, and the existence
    test is the only call made: nothing is decoded. *)
Theorem qc_missing_file_is_not_found H L body g p :
  body_image_path body = JStr p -> p <> "" ->
  os_path_exists H p = false ->
  respond (qc H L body) g = Reply [Call_exists p] (NotFound p) g.
Proof. intros Hp Hne Hex. now apply qc_not_found_run. Qed.

(** C7. For every image on which the edge pipeline gives no contour, the
    estimate is the NoTrunkDetected error, with no measurement. *)
Theorem qc_no_contour_is_no_trunk H L body g p image :
  body_image_path body = JStr p -> p <> "" ->
  os_path_exists H p = true -> cv2_imread H p = Some image ->
  edge_contours L image = [] ->
  respond (qc H L body) g = Reply (pipeline_calls p) NoTrunkDetected g.
Proof. intros Hp Hne Hex Him Hcs. now apply (qc_no_contour_run H L body g p Hp Hne image). Qed.

(** C8. Every field of a successful result carries at most one decimal
    and is not negative, for the table of the source and libraries that
    give non-negative radii and powers. *)
Theorem qc_fields_one_decimal_nonneg H L body g m :
  cur_species_coeffs g = species_coeffs ->
  radius_contract L -> pow_contract L ->
  resp (respond (qc H L body) g) = Ok200 m ->
  field_ok (dbh m) /\ field_ok (girth m) /\ field_ok (m_height m) /\ field_ok (m_canopy m).
Proof.
  intros Htab Hrad Hpow Hm. destruct g as [table]. simpl in Htab. subst table.
  destruct (qc_ok_inv _ _ _ _ _ Hm)
    as (p & image & c & center & radius & dflt & p_h & p_c
        & _ & _ & _ & _ & _ & Hcirc & Hd & Hph & Hpc & ->).
  cbv zeta in Hph, Hpc. cbv zeta. cbn [dbh girth m_height m_canopy].
  cbn [cur_species_coeffs] in *.
  set (co := dict_get species_coeffs (body_species body) dflt) in *.
  assert (Hco : coeffs_ok co).
  { destruct (dict_get_in_table _ (body_species body) _ Hd) as (k & Hk).
    eapply species_coeffs_ok, Hk. }
  destruct Hco as (Hah & Hbh & Hac & Hbc).
  assert (Hr : PyFloat.nonneg radius) by (specialize (Hrad c); now rewrite Hcirc in Hrad).
  assert (Hdbh : PyFloat.nonneg (2 * radius * 0.1)).
  { apply FloatFacts.mul_nonneg_l; [|reflexivity].
    apply FloatFacts.mul_nonneg_r; [reflexivity|assumption]. }
  pose proof (Hpow _ _ _ Hdbh Hbh Hph) as Hp_h.
  pose proof (Hpow _ _ _ Hdbh Hbc Hpc) as Hp_c.
  repeat split; try apply FloatFacts.round1_one_decimal; apply FloatFacts.round1_nonneg;
    try assumption; apply FloatFacts.mul_nonneg_r; try assumption; reflexivity.
Qed.

(** The same decoded image under two names, on two hosts. *)
Lemma qc_same_image H1 H2 L b1 b2 g p1 p2 image :
  body_image_path b1 = JStr p1 -> body_image_path b2 = JStr p2 ->
  body_species b1 = body_species b2 ->
  p1 <> "" -> p2 <> "" ->
  os_path_exists H1 p1 = true -> os_path_exists H2 p2 = true ->
  cv2_imread H1 p1 = Some image -> cv2_imread H2 p2 = Some image ->
  resp (respond (qc H1 L b1) g) = resp (respond (qc H2 L b2) g).
Proof.
  intros Hp1 Hp2 Hsp Hne1 Hne2 Hex1 Hex2 Him1 Him2. unfold respond, qc.
  fold (body_image_path b1) (body_species b1) (body_image_path b2) (body_species b2).
  rewrite Hp1, Hp2, Hsp.
  destruct p1 as [|a1 q1]; [contradiction|]. destruct p2 as [|a2 q2]; [contradiction|].
  rewrite !bind_extern, Hex1, Hex2. cbn [negb].
  rewrite !bind_extern, Him1, Him2. reflexivity.
Qed.

(** C9. The estimate keeps no state and never writes the coefficient
    table: every invocation leaves the globals as they were; the same
    request served again, in the globals the first invocation left, gets
    the same response through the same calls; and two requests for the
    same image content and the same species get the same response, under
    whatever name and on whatever host the image is read, in any two
    states of the process with the same table. *)
Theorem qc_keeps_no_state :
  (forall H L body g, globals_after (respond (qc H L body) g) = g) /\
  (forall H L body g,
      respond (qc H L body) (globals_after (respond (qc H L body) g)) =
      respond (qc H L body) g) /\
  (forall H1 H2 L p1 p2 species g1 g2 image,
      cur_species_coeffs g1 = cur_species_coeffs g2 ->
      p1 <> "" -> p2 <> "" ->
      os_path_exists H1 p1 = true -> os_path_exists H2 p2 = true ->
      cv2_imread H1 p1 = Some image -> cv2_imread H2 p2 = Some image ->
      resp (respond (qc H1 L (post p1 species)) g1) =
      resp (respond (qc H2 L (post p2 species)) g2)).
Proof.
  split; [|split].
  - apply qc_globals_after.
  - intros H L body g. now rewrite qc_globals_after.
  - intros H1 H2 L p1 p2 species [t1] [t2] image Ht Hne1 Hne2 Hex1 Hex2 Him1 Him2.
    simpl in Ht. subst t2.
    apply (qc_same_image H1 H2 L _ _ _ p1 p2 image); try assumption.
    + apply body_image_path_post.
    + apply body_image_path_post.
    + now destruct species.
Qed.

(** C10. A request whose image path is the empty string is answered as
    one without a path: MissingInput, not NotFound, and no call is made,
    so the file system is never consulted. *)
Theorem qc_empty_path_is_missing_input H L species g :
  respond (qc H L (post "" species)) g = Reply [] MissingInput g.
Proof.
  unfold respond, qc. fold (body_image_path (post "" species)).
  now rewrite body_image_path_post.
Qed.

(** C6 as stated fails on the empty path: it references no existing file,
    and the answer is MissingInput, not NotFound. *)
Lemma qc_empty_path_is_not_not_found :
  os_path_exists Demo.files "" = false /\
  resp (respond (qc Demo.files Demo.cv (post "" None)) init_globals) <> NotFound "".
Proof. split; [reflexivity|]. vm_compute. discriminate. Qed.

(** * The properties on the fixtures *)

Lemma demo_trunk_run :
  respond (qc Demo.files Demo.cv Demo.trunk_request) init_globals =
  Reply (Demo.trunk_calls "/data/trunk.jpg" ++ [Call_pow 10 1.2; Call_pow 10 1.5])
        (Ok200 Demo.default_result) init_globals.
Proof. vm_compute. reflexivity. Qed.

(** The post has the area of the trunk and a wider circle; it comes later
    and is not taken. *)
Lemma demo_tie_break :
  map Demo.contourArea [Demo.twig; Demo.trunk; Demo.fence_post] = [16; 4800; 4800]%float /\
  first_largest Demo.contourArea [Demo.twig; Demo.trunk; Demo.fence_post] = Some Demo.trunk /\
  first_largest Demo.contourArea [Demo.twig; Demo.fence_post; Demo.trunk] = Some Demo.fence_post.
Proof. repeat split; vm_compute; reflexivity. Qed.

Lemma qc_dbh_witness :
  resp (respond (qc Demo.files Demo.cv Demo.trunk_request) init_globals) = Ok200 Demo.default_result /\
  exists p image trunk_contour center radius,
    body_image_path Demo.trunk_request = JStr p /\
    cv2_imread Demo.files p = Some image /\
    first_largest (cv2_contourArea Demo.cv) (edge_contours Demo.cv image) = Some trunk_contour /\
    cv2_minEnclosingCircle Demo.cv trunk_contour = (center, radius) /\
    dbh Demo.default_result = PyFloat.round1 (2 * radius * 0.1).
Proof.
  assert (Hrun : resp (respond (qc Demo.files Demo.cv Demo.trunk_request) init_globals)
                 = Ok200 Demo.default_result) by (vm_compute; reflexivity).
  split; [exact Hrun|].
  exact (qc_dbh_is_scaled_circle_diameter Demo.files Demo.cv Demo.trunk_request init_globals
           Demo.default_result Hrun).
Defined.

Lemma qc_girth_witness :
  resp (respond (qc Demo.files Demo.cv Demo.trunk_request) init_globals) = Ok200 Demo.default_result /\
  exists dbh_cm girth_cm,
    girth_cm = (PyFloat.pi * dbh_cm)%float /\
    dbh Demo.default_result = PyFloat.round1 dbh_cm /\
    girth Demo.default_result = PyFloat.round1 girth_cm.
Proof.
  assert (Hrun : resp (respond (qc Demo.files Demo.cv Demo.trunk_request) init_globals)
                 = Ok200 Demo.default_result) by (vm_compute; reflexivity).
  split; [exact Hrun|].
  exact (qc_girth_is_pi_times_dbh Demo.files Demo.cv Demo.trunk_request init_globals
           Demo.default_result Hrun).
Defined.

Lemma qc_height_canopy_witness :
  resp (respond (qc Demo.files Demo.cv Demo.oak_request) init_globals) = Ok200 Demo.oak_result /\
  exists p image trunk_contour center radius dflt p_h p_c,
    body_image_path Demo.oak_request = JStr p /\
    cv2_imread Demo.files p = Some image /\
    first_largest (cv2_contourArea Demo.cv) (edge_contours Demo.cv image) = Some trunk_contour /\
    cv2_minEnclosingCircle Demo.cv trunk_contour = (center, radius) /\
    cur_species_coeffs init_globals !! "Default" = Some dflt /\
    let dbh_cm := (2 * radius * 0.1)%float in
    let co := dict_get (cur_species_coeffs init_globals) (body_species Demo.oak_request) dflt in
    float_pow Demo.cv dbh_cm (snd (height co)) = Some p_h /\
    float_pow Demo.cv dbh_cm (snd (canopy co)) = Some p_c /\
    m_height Demo.oak_result = PyFloat.round1 (fst (height co) * p_h) /\
    m_canopy Demo.oak_result = PyFloat.round1 (fst (canopy co) * p_c).
Proof.
  assert (Hrun : resp (respond (qc Demo.files Demo.cv Demo.oak_request) init_globals)
                 = Ok200 Demo.oak_result) by (vm_compute; reflexivity).
  split; [exact Hrun|].
  exact (qc_height_canopy_power_law Demo.files Demo.cv Demo.oak_request init_globals
           Demo.oak_result Hrun).
Defined.

(** The lookup is by exact match: "oak" is not "Oak". *)
Lemma qc_unknown_species_witness :
  cur_species_coeffs init_globals !! "oak" = None /\
  respond (qc Demo.files Demo.cv (with_species Demo.trunk_request (JStr "oak"))) init_globals =
  respond (qc Demo.files Demo.cv (with_species Demo.trunk_request (JStr "Default"))) init_globals.
Proof.
  assert (Hnone : cur_species_coeffs init_globals !! "oak" = None) by (vm_compute; reflexivity).
  split; [exact Hnone|].
  exact (qc_unknown_species_is_default Demo.files Demo.cv Demo.trunk_request init_globals "oak" Hnone).
Defined.

Lemma qc_selects_witness :
  area_contract Demo.cv /\
  body_image_path Demo.trunk_request = JStr "/data/trunk.jpg" /\
  os_path_exists Demo.files "/data/trunk.jpg" = true /\
  cv2_imread Demo.files "/data/trunk.jpg" = Some Demo.trunk_photo /\
  edge_contours Demo.cv Demo.trunk_photo <> [] /\
  exists trunk_contour,
    first_largest_at (cv2_contourArea Demo.cv) (edge_contours Demo.cv Demo.trunk_photo)
      trunk_contour /\
    forall c, In (Call_minEnclosingCircle c)
                (calls (respond (qc Demo.files Demo.cv Demo.trunk_request) init_globals))
              <-> c = trunk_contour.
Proof.
  assert (Hp : body_image_path Demo.trunk_request = JStr "/data/trunk.jpg")
    by (vm_compute; reflexivity).
  assert (Hne : "/data/trunk.jpg" <> "") by discriminate.
  assert (Hex : os_path_exists Demo.files "/data/trunk.jpg" = true) by (vm_compute; reflexivity).
  assert (Him : cv2_imread Demo.files "/data/trunk.jpg" = Some Demo.trunk_photo)
    by (vm_compute; reflexivity).
  assert (Hcs : edge_contours Demo.cv Demo.trunk_photo <> []) by (vm_compute; discriminate).
  repeat (split; [assumption || exact demo_area_contract|]).
  exact (qc_selects_first_largest_contour Demo.files Demo.cv Demo.trunk_request init_globals
           "/data/trunk.jpg" Demo.trunk_photo demo_area_contract Hp Hne Hex Him Hcs).
Defined.

Lemma qc_missing_file_witness :
  body_image_path Demo.gone_request = JStr "/data/gone.jpg" /\
  os_path_exists Demo.files "/data/gone.jpg" = false /\
  respond (qc Demo.files Demo.cv Demo.gone_request) init_globals =
  Reply [Call_exists "/data/gone.jpg"] (NotFound "/data/gone.jpg") init_globals.
Proof.
  assert (Hp : body_image_path Demo.gone_request = JStr "/data/gone.jpg")
    by (vm_compute; reflexivity).
  assert (Hne : "/data/gone.jpg" <> "") by discriminate.
  assert (Hex : os_path_exists Demo.files "/data/gone.jpg" = false) by (vm_compute; reflexivity).
  split; [exact Hp|]. split; [exact Hex|].
  exact (qc_missing_file_is_not_found Demo.files Demo.cv Demo.gone_request init_globals
           "/data/gone.jpg" Hp Hne Hex).
Defined.

Lemma qc_no_contour_witness :
  body_image_path Demo.blank_request = JStr "/data/blank.jpg" /\
  os_path_exists Demo.files "/data/blank.jpg" = true /\
  cv2_imread Demo.files "/data/blank.jpg" = Some Demo.blank_photo /\
  edge_contours Demo.cv Demo.blank_photo = [] /\
  respond (qc Demo.files Demo.cv Demo.blank_request) init_globals =
  Reply (pipeline_calls "/data/blank.jpg") NoTrunkDetected init_globals.
Proof.
  assert (Hp : body_image_path Demo.blank_request = JStr "/data/blank.jpg")
    by (vm_compute; reflexivity).
  assert (Hne : "/data/blank.jpg" <> "") by discriminate.
  assert (Hex : os_path_exists Demo.files "/data/blank.jpg" = true) by (vm_compute; reflexivity).
  assert (Him : cv2_imread Demo.files "/data/blank.jpg" = Some Demo.blank_photo)
    by (vm_compute; reflexivity).
  assert (Hcs : edge_contours Demo.cv Demo.blank_photo = []) by (vm_compute; reflexivity).
  repeat (split; [assumption|]).
  exact (qc_no_contour_is_no_trunk Demo.files Demo.cv Demo.blank_request init_globals
           "/data/blank.jpg" Demo.blank_photo Hp Hne Hex Him Hcs).
Defined.

Lemma qc_fields_witness :
  cur_species_coeffs init_globals = species_coeffs /\
  radius_contract Demo.cv /\ pow_contract Demo.cv /\
  resp (respond (qc Demo.files Demo.cv Demo.trunk_request) init_globals) = Ok200 Demo.default_result /\
  field_ok (dbh Demo.default_result) /\ field_ok (girth Demo.default_result) /\
  field_ok (m_height Demo.default_result) /\ field_ok (m_canopy Demo.default_result).
Proof.
  assert (Hrun : resp (respond (qc Demo.files Demo.cv Demo.trunk_request) init_globals)
                 = Ok200 Demo.default_result) by (vm_compute; reflexivity).
  split; [reflexivity|]. split; [exact demo_radius_contract|].
  split; [exact demo_pow_contract|]. split; [exact Hrun|].
  exact (qc_fields_one_decimal_nonneg Demo.files Demo.cv Demo.trunk_request init_globals
           Demo.default_result eq_refl demo_radius_contract demo_pow_contract Hrun).
Defined.

Lemma qc_keeps_no_state_witness :
  os_path_exists Demo.files "/data/copy.jpg" = true /\
  os_path_exists Demo.other_files "/mnt/upload.jpg" = true /\
  cv2_imread Demo.files "/data/copy.jpg" = Some Demo.trunk_photo /\
  cv2_imread Demo.other_files "/mnt/upload.jpg" = Some Demo.trunk_photo /\
  resp (respond (qc Demo.files Demo.cv (post "/data/copy.jpg" (Some "Oak"))) init_globals) =
  resp (respond (qc Demo.other_files Demo.cv (post "/mnt/upload.jpg" (Some "Oak"))) init_globals).
Proof.
  assert (Hex1 : os_path_exists Demo.files "/data/copy.jpg" = true) by (vm_compute; reflexivity).
  assert (Hex2 : os_path_exists Demo.other_files "/mnt/upload.jpg" = true)
    by (vm_compute; reflexivity).
  assert (Him1 : cv2_imread Demo.files "/data/copy.jpg" = Some Demo.trunk_photo)
    by (vm_compute; reflexivity).
  assert (Him2 : cv2_imread Demo.other_files "/mnt/upload.jpg" = Some Demo.trunk_photo)
    by (vm_compute; reflexivity).
  repeat (split; [assumption|]).
  refine (proj2 (proj2 qc_keeps_no_state) Demo.files Demo.other_files Demo.cv
            "/data/copy.jpg" "/mnt/upload.jpg" (Some "Oak") init_globals init_globals
            Demo.trunk_photo eq_refl _ _ Hex1 Hex2 Him1 Him2); discriminate.
Defined.

(** ** [round1] against CPython's [round(x, 1)] *)

Example round1_half_to_even : PyFloat.round1 0.25 = 0.2%float.
Proof. vm_compute. reflexivity. Qed.

Example round1_binary_tie_below : PyFloat.round1 2.675 = 2.7%float.
Proof. vm_compute. reflexivity. Qed.

Example round1_below_half : PyFloat.round1 0.35 = 0.3%float.
Proof. vm_compute. reflexivity. Qed.

Example round1_keeps_zero_sign : PyFloat.round1 (-0.04) = (-0.0)%float.
Proof. vm_compute. reflexivity. Qed.

Example round1_large_is_identity : PyFloat.round1 1e22 = 1e22%float.
Proof. vm_compute. reflexivity. Qed.

Example round1_infinity : PyFloat.round1 infinity = infinity.
Proof. vm_compute. reflexivity. Qed.

Example round1_up_to_hundred : PyFloat.round1 99.95 = 100.0%float.
Proof. vm_compute. reflexivity. Qed.

Example round1_subnormal : PyFloat.round1 1e-320 = 0.0%float.
Proof. vm_compute. reflexivity. Qed.

Example round1_largest : PyFloat.round1 0x1.fffffffffffffp+1023 = 0x1.fffffffffffffp+1023%float.
Proof. vm_compute. reflexivity. Qed.

Example round1_quarter_ulp : PyFloat.round1 0x1.999999999999ap+49 = 0x1.999999999999ap+49%float.
Proof. vm_compute. reflexivity. Qed.

Example round1_girth : PyFloat.round1 (PyFloat.pi * 10) = 31.4%float.
Proof. vm_compute. reflexivity. Qed.

(** * Further properties of the handler *)

(** ** More runs read off the path *)

Lemma qc_missing_run H L body g :
  truthy (body_image_path body) = false ->
  respond (qc H L body) g = Reply [] MissingInput g.
Proof.
  intros Hf.
  destruct (qc_follows_path H L body g) as [?|q Hq Hne ?|q Hq Hne ? ?|q ? Hq Hne ? ? ?|q ? ? ? ? ? ? Hq Hne ? ? ? ? ?];
    try reflexivity; rewrite Hq, (truthy_nonempty q Hne) in Hf; discriminate.
Qed.

Lemma qc_decode_error_run H L body g p :
  body_image_path body = JStr p -> p <> "" ->
  os_path_exists H p = true -> cv2_imread H p = None ->
  respond (qc H L body) g = Reply [Call_exists p; Call_imread p] DecodeError g.
Proof.
  intros Hp Hne Hex Him. pose proof (truthy_nonempty p Hne) as Ht.
  destruct (qc_follows_path H L body g) as [?|q ? ? ?|q ? ? ? ?|q ? ? ? ? ? ?|q ? ? ? ? ? ? ? ? ? ? ? ? ?];
    try (assert (q = p) as -> by congruence); try congruence.
Qed.

(** The calls of lines 91-98 are powers only. *)
Lemma allometry_calls L body g dbh_cm t r :
  allometry L body g dbh_cm t r -> Forall (fun c => exists x y, c = Call_pow x y) t.
Proof. intros Hal. destruct Hal; repeat constructor; eauto. Qed.

(** With everything up to the circle given, the run is the measured path
    on that circle. *)
Lemma qc_measured_on H L body g p image trunk_contour center radius :
  body_image_path body = JStr p -> p <> "" ->
  os_path_exists H p = true -> cv2_imread H p = Some image ->
  first_largest (cv2_contourArea L) (edge_contours L image) = Some trunk_contour ->
  cv2_minEnclosingCircle L trunk_contour = (center, radius) ->
  exists t r,
    allometry L body g (2 * radius * 0.1) t r /\
    respond (qc H L body) g =
    Reply (pipeline_calls p ++ map Call_contourArea (edge_contours L image)
             ++ Call_minEnclosingCircle trunk_contour :: t) r g.
Proof.
  intros Hp Hne Hex Him Hc Hcirc. pose proof (truthy_nonempty p Hne) as Ht.
  destruct (qc_follows_path H L body g) as [?|q ? ? ?|q ? ? ? ?|q im ? ? ? Him' Hnil|q im c ce ra t r ? ? ? Him' Hc' Hcirc' Hal];
    try (assert (q = p) as -> by congruence); try congruence.
  - assert (im = image) as -> by congruence. rewrite Hnil in Hc. discriminate.
  - assert (im = image) as -> by congruence.
    assert (c = trunk_contour) as -> by congruence.
    assert (ra = radius) as -> by congruence.
    now exists t, r.
Qed.

Lemma max_loop_in {A} (key : A -> float) (it : list A) : forall maxitem maxval,
  max_loop key maxitem maxval it = maxitem \/ In (max_loop key maxitem maxval it) it.
Proof.
  induction it as [|item it' IH]; intros maxitem maxval; simpl; [now left|].
  destruct (maxval <? key item)%float.
  - destruct (IH item (key item)) as [->|Hin]; right; [now left|now right].
  - destruct (IH maxitem maxval) as [->|Hin]; [now left|right; now right].
Qed.

Lemma first_largest_in {A} (key : A -> float) (l : list A) c :
  first_largest key l = Some c -> In c l.
Proof.
  destruct l as [|item it]; [discriminate|]. intros [= <-].
  destruct (max_loop_in key it item (key item)) as [->|Hin]; [now left|now right].
Qed.

(** ** Errors *)

(** X1. When the path exists and [cv2.imread] returns [None] on it, the
    answer is "Failed to load image": the file is looked up, read once,
    and no image operation runs. *)
Theorem qc_undecodable_file_is_decode_error H L body g p :
  body_image_path body = JStr p -> p <> "" ->
  os_path_exists H p = true -> cv2_imread H p = None ->
  respond (qc H L body) g = Reply [Call_exists p; Call_imread p] DecodeError g.
Proof. apply qc_decode_error_run. Qed.

(** X2. A request without a usable path is answered "No image_path
    provided" before anything is called: [get_json()] returned [None] (the
    JSON body [null]), or an object with no "image_path" key, with a null
    or with an empty path. *)
Theorem qc_no_path_is_missing_input H L body g :
  body = None \/ default ∅ body !! "image_path" = None \/
  default ∅ body !! "image_path" = Some JNull \/
  default ∅ body !! "image_path" = Some (JStr "") ->
  respond (qc H L body) g = Reply [] MissingInput g.
Proof.
  intros Hcase. apply qc_missing_run. unfold body_image_path.
  destruct Hcase as [-> | [-> | [-> | ->]]]; reflexivity.
Qed.

(** X3. For a body that [get_json()] returned, with a string or null
    path, the error message tells what the calls returned: "No image_path
    provided" is sent if and only if the path is absent, null or empty;
    "Image not found: q" if and only if the path is the non-empty [q] and
    [os.path.exists] returned false on it; "Failed to load image" if and
    only if it returned true and [cv2.imread] returned [None]; "No trunk
    contour found in image" if and only if [cv2.imread] returned an image
    and [cv2.findContours] no contour. Runs on which a call raises are
    not covered. *)
Theorem qc_error_message_identifies_step H L body g :
  let r := resp (respond (qc H L body) g) in
  (r = MissingInput <-> truthy (body_image_path body) = false) /\
  (forall q, r = NotFound q <->
             body_image_path body = JStr q /\ q <> "" /\ os_path_exists H q = false) /\
  (r = DecodeError <->
     exists p, body_image_path body = JStr p /\ p <> "" /\
               os_path_exists H p = true /\ cv2_imread H p = None) /\
  (r = NoTrunkDetected <->
     exists p image, body_image_path body = JStr p /\ p <> "" /\
                     os_path_exists H p = true /\ cv2_imread H p = Some image /\
                     edge_contours L image = []).
Proof.
  cbv zeta. split; [|split; [|split]]; [|intros q| |]; split.
  - destruct (qc_follows_path H L body g) as [?|q ? ? ?|q ? ? ? ?|q ? ? ? ? ? ?|q ? c ? ? t r ? ? ? ? ? ? Hal];
      try (intros _; assumption); try discriminate.
    simpl. intros ->. inversion Hal.
  - intros Hf. now rewrite qc_missing_run.
  - destruct (qc_follows_path H L body g) as [?|p ? ? ?|p ? ? ? ?|p ? ? ? ? ? ?|p ? c ? ? t r ? ? ? ? ? ? Hal];
      try discriminate.
    + intros E. vm_compute in E. injection E as <-. now repeat split.
    + simpl. intros ->. inversion Hal.
  - intros (Hq & Hne & Hex). now rewrite (qc_not_found_run H L body g q Hq Hne Hex).
  - destruct (qc_follows_path H L body g) as [?|p ? ? ?|p ? ? ? ?|p ? ? ? ? ? ?|p ? c ? ? t r ? ? ? ? ? ? Hal];
      try discriminate.
    + intros _. now exists p.
    + simpl. intros ->. inversion Hal.
  - intros (p & Hp & Hne & Hex & Him). now rewrite (qc_decode_error_run H L body g p).
  - destruct (qc_follows_path H L body g) as [?|p ? ? ?|p ? ? ? ?|p image ? ? ? ? ?|p ? c ? ? t r ? ? ? ? ? ? Hal];
      try discriminate.
    + intros _. now exists p, image.
    + simpl. intros ->. inversion Hal.
  - intros (p & image & Hp & Hne & Hex & Him & Hcs).
    now rewrite (qc_no_contour_run H L body g p Hp Hne image Hex Him Hcs).
Qed.

(** X4. The handler touches no file but the one the request names: every
    existence test and every decoding is on the path of the body, and a
    file is decoded only after it was found to exist. *)
Theorem qc_touches_only_requested_path H L body g q :
  In (Call_exists q) (calls (respond (qc H L body) g)) \/
  In (Call_imread q) (calls (respond (qc H L body) g)) ->
  body_image_path body = JStr q /\ q <> "" /\
  (In (Call_imread q) (calls (respond (qc H L body) g)) -> os_path_exists H q = true).
Proof.
  destruct (qc_follows_path H L body g) as [?|p Hp Hne Hex|p Hp Hne Hex ?|p ? Hp Hne Hex ? ?|p image c ? ? t r Hp Hne Hex ? ? ? Hal];
    simpl.
  - intros [[]|[]].
  - intros [[[= <-]|[]]|[E|[]]]; [|discriminate].
    repeat split; try assumption. intros [E|[]]. discriminate.
  - intros [[[= <-]|[E|[]]]|[E|[[= <-]|[]]]]; try discriminate; now repeat split.
  - intros [[[= <-]|Hin]|[E|[[= <-]|Hin]]]; try discriminate; try (now repeat split);
      exfalso; repeat (destruct Hin as [E|Hin]; [discriminate|]); exact Hin.
  - pose proof (allometry_calls _ _ _ _ _ _ Hal) as Ht. rewrite Forall_forall in Ht.
    assert (Hrest : forall k, In k (map Call_contourArea (edge_contours L image)
                                      ++ Call_minEnclosingCircle c :: t) ->
                              (exists x, k = Call_contourArea x) \/
                              (exists x, k = Call_minEnclosingCircle x) \/
                              exists x y, k = Call_pow x y).
    { intros k Hk. apply in_app_or in Hk as [Hk|[<-|Hk]].
      - apply in_map_iff in Hk as (x & <- & _). left. now exists x.
      - right. left. now exists c.
      - right. right. exact (Ht _ (proj2 (list_elem_of_In _ _) Hk)). }
    intros [[[= <-]|Hin]|[E|[[= <-]|Hin]]]; try discriminate; try (now repeat split);
      exfalso; repeat (destruct Hin as [E|Hin]; [discriminate|]);
      destruct (Hrest _ Hin) as [(x & E)|[(x & E)|(x & y & E)]]; discriminate.
Qed.

(** ** Success *)

(** X5. When every step succeeds the estimate does: for a path that
    exists and decodes, a contour to measure, a "Default" entry in the
    table and two powers that are floats, the answer is the 200 response
    with the four rounded values, after one area call per contour in
    order, one circle and two powers. *)
Theorem qc_succeeds_when_every_step_does
    H L body g p image trunk_contour center radius dflt p_h p_c :
  body_image_path body = JStr p -> p <> "" ->
  os_path_exists H p = true -> cv2_imread H p = Some image ->
  first_largest (cv2_contourArea L) (edge_contours L image) = Some trunk_contour ->
  cv2_minEnclosingCircle L trunk_contour = (center, radius) ->
  cur_species_coeffs g !! "Default" = Some dflt ->
  let dbh_cm := (2 * radius * 0.1)%float in
  let co := dict_get (cur_species_coeffs g) (body_species body) dflt in
  float_pow L dbh_cm (snd (height co)) = Some p_h ->
  float_pow L dbh_cm (snd (canopy co)) = Some p_c ->
  respond (qc H L body) g =
  Reply (pipeline_calls p ++ map Call_contourArea (edge_contours L image)
           ++ [Call_minEnclosingCircle trunk_contour;
               Call_pow dbh_cm (snd (height co)); Call_pow dbh_cm (snd (canopy co))])
        (Ok200 (Measurement (PyFloat.round1 dbh_cm) (PyFloat.round1 (PyFloat.pi * dbh_cm))
                            (PyFloat.round1 (fst (height co) * p_h))
                            (PyFloat.round1 (fst (canopy co) * p_c))))
        g.
Proof.
  intros Hp Hne Hex Him Hc Hcirc Hd dbh_cm co Hph Hpc.
  destruct (qc_measured_on H L body g p image trunk_contour center radius
              Hp Hne Hex Him Hc Hcirc) as (t & r & Hal & ->).
  fold dbh_cm in Hal.
  inversion Hal as [Hd'|d' Hd' co' Hph'|d' h' Hd' co' Hph' Hpc'|d' h' c' Hd' co' Hph' Hpc'];
    subst; try congruence;
    assert (d' = dflt) as -> by congruence; subst co'; fold co in Hph'; try congruence.
  - fold co in Hpc'. congruence.
  - fold co in Hpc'. fold co.
    assert (h' = p_h) as -> by congruence. assert (c' = p_c) as -> by congruence.
    reflexivity.
Qed.

(** X6. If one of the two powers is not a float (an overflow, say) the
    answer is a 500: no response with part of the values is sent. *)
Theorem qc_power_failure_is_500 H L body g p image trunk_contour center radius dflt :
  body_image_path body = JStr p -> p <> "" ->
  os_path_exists H p = true -> cv2_imread H p = Some image ->
  first_largest (cv2_contourArea L) (edge_contours L image) = Some trunk_contour ->
  cv2_minEnclosingCircle L trunk_contour = (center, radius) ->
  cur_species_coeffs g !! "Default" = Some dflt ->
  let dbh_cm := (2 * radius * 0.1)%float in
  let co := dict_get (cur_species_coeffs g) (body_species body) dflt in
  float_pow L dbh_cm (snd (height co)) = None \/
  float_pow L dbh_cm (snd (canopy co)) = None ->
  resp (respond (qc H L body) g) = Err500.
Proof.
  intros Hp Hne Hex Him Hc Hcirc Hd dbh_cm co Hfail.
  destruct (qc_measured_on H L body g p image trunk_contour center radius
              Hp Hne Hex Him Hc Hcirc) as (t & r & Hal & ->).
  fold dbh_cm in Hal. simpl.
  inversion Hal as [Hd'|d' Hd' co' Hph'|d' h' Hd' co' Hph' Hpc'|d' h' c' Hd' co' Hph' Hpc'];
    subst; try reflexivity.
  assert (d' = dflt) as -> by congruence. subst co'. fold co in Hph', Hpc'.
  destruct Hfail; congruence.
Qed.

(** X7. The "Default" entry is required: with a table that lacks it,
    every request that gets as far as a contour is answered 500, also for
    a species the table has. *)
Theorem qc_requires_default_entry H L body g p image :
  body_image_path body = JStr p -> p <> "" ->
  os_path_exists H p = true -> cv2_imread H p = Some image ->
  edge_contours L image <> [] ->
  cur_species_coeffs g !! "Default" = None ->
  resp (respond (qc H L body) g) = Err500.
Proof.
  intros Hp Hne Hex Him Hcs Hd.
  destruct (first_largest (cv2_contourArea L) (edge_contours L image)) as [c|] eqn:Hc.
  2:{ destruct (edge_contours L image); [contradiction|discriminate]. }
  destruct (cv2_minEnclosingCircle L c) as [center radius] eqn:Hcirc.
  destruct (qc_measured_on H L body g p image c center radius
              Hp Hne Hex Him Hc Hcirc) as (t & r & Hal & ->).
  simpl. inversion Hal; subst; try reflexivity; congruence.
Qed.

(** ** The species *)

(** X8. A request without a "species" key, or with a null species, is
    served as one for "Default": same response, same calls. *)
Theorem qc_absent_or_null_species_is_default H L body g :
  default ∅ body !! "species" = None \/ default ∅ body !! "species" = Some JNull ->
  respond (qc H L body) g = respond (qc H L (with_species body (JStr "Default"))) g.
Proof.
  intros Hsp. unfold respond.
  rewrite (qc_ext H L body (with_species body (JStr "Default")) g); [reflexivity| |].
  - now rewrite body_image_path_with_species.
  - intros dflt Hd. rewrite body_species_with_species. unfold body_species.
    destruct Hsp as [-> | ->]; simpl; now rewrite Hd.
Qed.

(** The response depends on the table through the selected entry only. *)
Lemma qc_resp_same_entry H L body g1 g2 co :
  (forall d1, cur_species_coeffs g1 !! "Default" = Some d1 ->
              dict_get (cur_species_coeffs g1) (body_species body) d1 = co) ->
  (forall d2, cur_species_coeffs g2 !! "Default" = Some d2 ->
              dict_get (cur_species_coeffs g2) (body_species body) d2 = co) ->
  is_Some (cur_species_coeffs g1 !! "Default") ->
  is_Some (cur_species_coeffs g2 !! "Default") ->
  resp (respond (qc H L body) g1) = resp (respond (qc H L body) g2).
Proof.
  intros Hsel1 Hsel2 [d1 Hd1] [d2 Hd2]. unfold respond, qc.
  fold (body_image_path body) (body_species body).
  destruct (body_image_path body) as [|[|a p']]; try reflexivity.
  rewrite !bind_extern. destruct (os_path_exists H _); [|reflexivity]. cbn [negb].
  rewrite !bind_extern. destruct (cv2_imread H _) as [image|]; [|reflexivity].
  rewrite !bind_extern. destruct (cv2_findContours _ _ _ _) as [[|c0 rest] hier]; [reflexivity|].
  unfold py_max. rewrite !bind_bind, !bind_tell.
  destruct (first_largest _ _) as [trunk_contour|]; [|reflexivity].
  rewrite !bind_mret, !bind_extern.
  destruct (cv2_minEnclosingCircle L trunk_contour) as [[x y] radius].
  rewrite !bind_load. unfold dict_getitem. rewrite Hd1, Hd2, !bind_ret.
  rewrite (Hsel1 d1 Hd1), (Hsel2 d2 Hd2).
  destruct (height co) as [a_h b_h], (canopy co) as [a_c b_c].
  unfold pow. rewrite !bind_bind, !bind_extern.
  destruct (float_pow L _ b_h) as [p_h|]; [|reflexivity].
  rewrite !bind_ret, !bind_bind, !bind_extern.
  destruct (float_pow L _ b_c) as [p_c|]; reflexivity.
Qed.

(** X9. No cross-talk between species: for a species the table has, the
    response depends on that entry alone. Two tables that agree on it, and
    both have some "Default" entry, give the same response whatever their
    other entries are. *)
Theorem qc_known_species_ignores_other_entries H L body g1 g2 name co :
  body_species body = JStr name ->
  cur_species_coeffs g1 !! name = Some co ->
  cur_species_coeffs g2 !! name = Some co ->
  is_Some (cur_species_coeffs g1 !! "Default") ->
  is_Some (cur_species_coeffs g2 !! "Default") ->
  resp (respond (qc H L body) g1) = resp (respond (qc H L body) g2).
Proof.
  intros Hsp H1 H2 Hd1 Hd2. apply (qc_resp_same_entry H L body g1 g2 co); try assumption.
  - intros d1 _. rewrite Hsp. simpl. now rewrite H1.
  - intros d2 _. rewrite Hsp. simpl. now rewrite H2.
Qed.

(** X10. The species has no part in the diameter and the girth: two
    successful estimates on the same path, for any two species and in any
    two states of the table, report the same "dbh" and the same "girth". *)
Theorem qc_dbh_girth_ignore_species H L b1 b2 g1 g2 m1 m2 :
  body_image_path b1 = body_image_path b2 ->
  resp (respond (qc H L b1) g1) = Ok200 m1 ->
  resp (respond (qc H L b2) g2) = Ok200 m2 ->
  dbh m1 = dbh m2 /\ girth m1 = girth m2.
Proof.
  intros Hpath Hm1 Hm2.
  destruct (qc_ok_inv _ _ _ _ _ Hm1)
    as (p1 & i1 & c1 & ce1 & r1 & d1 & h1 & k1 & Hp1 & _ & _ & Hi1 & Hc1 & Hr1 & _ & _ & _ & ->).
  destruct (qc_ok_inv _ _ _ _ _ Hm2)
    as (p2 & i2 & c2 & ce2 & r2 & d2 & h2 & k2 & Hp2 & _ & _ & Hi2 & Hc2 & Hr2 & _ & _ & _ & ->).
  assert (p2 = p1) as -> by congruence.
  assert (i2 = i1) as -> by congruence.
  assert (c2 = c1) as -> by congruence.
  assert (r2 = r1) as -> by congruence.
  now split.
Qed.

(** X11. Whatever the areas are, NaN included, the contour that is
    measured is one of those extracted from the image of the request. *)
Theorem qc_measures_an_extracted_contour H L body g c :
  In (Call_minEnclosingCircle c) (calls (respond (qc H L body) g)) ->
  exists p image,
    body_image_path body = JStr p /\ cv2_imread H p = Some image /\
    In c (edge_contours L image).
Proof.
  destruct (qc_follows_path H L body g) as [?|p ? ? ?|p ? ? ? ?|p ? ? ? ? ? ?|p image c' ? ? t r Hp ? ? Him Hc ? Hal];
    simpl.
  - intros [].
  - intros [E|[]]. discriminate.
  - intros [E|[E|[]]]; discriminate.
  - intros Hin. repeat (destruct Hin as [E|Hin]; [discriminate|]). destruct Hin.
  - intros Hin. repeat (destruct Hin as [E|Hin]; [discriminate|]).
    apply in_app_or in Hin as [Hin|[[= <-]|Hin]].
    + apply in_map_iff in Hin as (x & E & _). discriminate.
    + exists p, image. repeat split; try assumption. eapply first_largest_in, Hc.
    + pose proof (allometry_calls _ _ _ _ _ _ Hal) as Ht. rewrite Forall_forall in Ht.
      destruct (Ht _ (proj2 (list_elem_of_In _ _) Hin)) as (x & y & E). discriminate.
Qed.

(** ** [/species] and [/qc] together *)

(** X12. What [/species] lists is what [/qc] uses: for an entry
    (name, coefficients) of the listing, a successful estimate for that
    name is computed with these coefficients. *)
Theorem qc_uses_listed_coefficients H L body items name co m :
  NoDup (map fst items) ->
  In (name, co) (r_coefficients (get_species items)) ->
  body_species body = JStr name ->
  resp (respond (qc H L body) (dict_of items)) = Ok200 m ->
  In name (r_species (get_species items)) /\
  exists dbh_cm p_h p_c,
    dbh m = PyFloat.round1 dbh_cm /\
    float_pow L dbh_cm (snd (height co)) = Some p_h /\
    float_pow L dbh_cm (snd (canopy co)) = Some p_c /\
    m_height m = PyFloat.round1 (fst (height co) * p_h) /\
    m_canopy m = PyFloat.round1 (fst (canopy co) * p_c).
Proof.
  intros Hnd Hin Hsp Hm. simpl in Hin. split.
  - simpl. apply in_map_iff. now exists (name, co).
  - assert (Hlook : cur_species_coeffs (dict_of items) !! name = Some co).
    { simpl. apply elem_of_list_to_map_1.
      - exact Hnd.
      - now apply list_elem_of_In. }
    destruct (qc_ok_inv _ _ _ _ _ Hm)
      as (p & image & c & center & radius & dflt & p_h & p_c
          & _ & _ & _ & _ & _ & _ & Hd & Hph & Hpc & ->).
    cbv zeta in Hph, Hpc. cbv zeta.
    assert (Eco : dict_get (cur_species_coeffs (dict_of items)) (body_species body) dflt = co)
      by (rewrite Hsp; unfold dict_get; now rewrite Hlook).
    rewrite Eco in *.
    exists (2 * radius * 0.1)%float, p_h, p_c. now repeat split.
Qed.

(** X13. A name that [/species] does not list is served by [/qc] as
    "Default". *)
Theorem qc_unlisted_species_is_default H L body items name :
  ~ In name (r_species (get_species items)) ->
  respond (qc H L (with_species body (JStr name))) (dict_of items) =
  respond (qc H L (with_species body (JStr "Default"))) (dict_of items).
Proof.
  intros Hout. unfold respond.
  rewrite (qc_ext H L (with_species body (JStr name)) (with_species body (JStr "Default"))
             (dict_of items)); [reflexivity| |].
  - now rewrite !body_image_path_with_species.
  - intros dflt Hd. rewrite !body_species_with_species. simpl in Hd |- *. rewrite Hd.
    rewrite (not_elem_of_list_to_map_1 items name); [reflexivity|].
    intros Hin. apply Hout. simpl. now apply list_elem_of_In.
Qed.

(** ** The image *)

Lemma allometry_resp_functional L b1 b2 g dbh_cm t1 r1 t2 r2 :
  body_species b1 = body_species b2 ->
  allometry L b1 g dbh_cm t1 r1 -> allometry L b2 g dbh_cm t2 r2 -> r1 = r2.
Proof.
  intros Hsp Ha1 Ha2.
  inversion Ha1 as [Hd1|d1 Hd1 co1 Hh1|d1 h1 Hd1 co1 Hh1 Hc1|d1 h1 c1 Hd1 co1 Hh1 Hc1]; subst;
    inversion Ha2 as [Hd2|d2 Hd2 co2 Hh2|d2 h2 Hd2 co2 Hh2 Hc2|d2 h2 c2 Hd2 co2 Hh2 Hc2]; subst;
    try reflexivity; try congruence;
    assert (d2 = d1) as -> by congruence; subst co1 co2; rewrite Hsp in *; congruence.
Qed.

(** X14. Of the image the response keeps the radius of the measured
    circle and nothing else: two requests for the same species whose
    circles have the same radius get the same response, whatever the two
    files, images, contours and centres are. *)
Theorem qc_response_depends_on_radius_only
    H1 H2 L b1 b2 g p1 p2 image1 image2 c1 c2 center1 center2 radius :
  body_species b1 = body_species b2 ->
  body_image_path b1 = JStr p1 -> p1 <> "" ->
  body_image_path b2 = JStr p2 -> p2 <> "" ->
  os_path_exists H1 p1 = true -> cv2_imread H1 p1 = Some image1 ->
  os_path_exists H2 p2 = true -> cv2_imread H2 p2 = Some image2 ->
  first_largest (cv2_contourArea L) (edge_contours L image1) = Some c1 ->
  first_largest (cv2_contourArea L) (edge_contours L image2) = Some c2 ->
  cv2_minEnclosingCircle L c1 = (center1, radius) ->
  cv2_minEnclosingCircle L c2 = (center2, radius) ->
  resp (respond (qc H1 L b1) g) = resp (respond (qc H2 L b2) g).
Proof.
  intros Hsp Hp1 Hne1 Hp2 Hne2 Hex1 Him1 Hex2 Him2 Hc1 Hc2 Hr1 Hr2.
  destruct (qc_measured_on H1 L b1 g p1 image1 c1 center1 radius Hp1 Hne1 Hex1 Him1 Hc1 Hr1)
    as (t1 & r1 & Ha1 & ->).
  destruct (qc_measured_on H2 L b2 g p2 image2 c2 center2 radius Hp2 Hne2 Hex2 Him2 Hc2 Hr2)
    as (t2 & r2 & Ha2 & ->).
  simpl. eapply allometry_resp_functional; eassumption.
Qed.

(** ** The further properties on the fixtures *)

Lemma qc_undecodable_file_witness :
  body_image_path Cases.notes_request = JStr "/data/notes.txt" /\
  os_path_exists Demo.files "/data/notes.txt" = true /\
  cv2_imread Demo.files "/data/notes.txt" = None /\
  respond (qc Demo.files Demo.cv Cases.notes_request) init_globals =
  Reply [Call_exists "/data/notes.txt"; Call_imread "/data/notes.txt"] DecodeError init_globals.
Proof.
  assert (Hp : body_image_path Cases.notes_request = JStr "/data/notes.txt")
    by (vm_compute; reflexivity).
  assert (Hne : "/data/notes.txt" <> "") by discriminate.
  assert (Hex : os_path_exists Demo.files "/data/notes.txt" = true) by (vm_compute; reflexivity).
  assert (Him : cv2_imread Demo.files "/data/notes.txt" = None) by (vm_compute; reflexivity).
  repeat (split; [assumption|]).
  exact (qc_undecodable_file_is_decode_error Demo.files Demo.cv Cases.notes_request
           init_globals "/data/notes.txt" Hp Hne Hex Him).
Defined.

Lemma qc_no_path_witness :
  default ∅ Cases.null_path_request !! "image_path" = Some JNull /\
  respond (qc Demo.files Demo.cv Cases.null_path_request) init_globals =
  Reply [] MissingInput init_globals.
Proof.
  assert (Hnull : default ∅ Cases.null_path_request !! "image_path" = Some JNull)
    by (vm_compute; reflexivity).
  split; [exact Hnull|].
  exact (qc_no_path_is_missing_input Demo.files Demo.cv Cases.null_path_request init_globals
           (or_intror (or_intror (or_introl Hnull)))).
Defined.

Lemma qc_touches_only_witness :
  In (Call_imread "/data/trunk.jpg")
     (calls (respond (qc Demo.files Demo.cv Demo.trunk_request) init_globals)) /\
  body_image_path Demo.trunk_request = JStr "/data/trunk.jpg" /\
  "/data/trunk.jpg" <> "" /\
  (In (Call_imread "/data/trunk.jpg")
      (calls (respond (qc Demo.files Demo.cv Demo.trunk_request) init_globals)) ->
   os_path_exists Demo.files "/data/trunk.jpg" = true).
Proof.
  assert (Hin : In (Call_imread "/data/trunk.jpg")
                  (calls (respond (qc Demo.files Demo.cv Demo.trunk_request) init_globals)))
    by (vm_compute; right; left; reflexivity).
  split; [exact Hin|].
  exact (qc_touches_only_requested_path Demo.files Demo.cv Demo.trunk_request init_globals
           "/data/trunk.jpg" (or_intror Hin)).
Defined.

Lemma qc_succeeds_witness :
  respond (qc Demo.files Demo.cv Demo.trunk_request) init_globals =
  Reply (Demo.trunk_calls "/data/trunk.jpg" ++ [Call_pow 10 1.2; Call_pow 10 1.5])
        (Ok200 Demo.default_result) init_globals.
Proof.
  refine (eq_trans
            (qc_succeeds_when_every_step_does Demo.files Demo.cv Demo.trunk_request init_globals
               "/data/trunk.jpg" Demo.trunk_photo Demo.trunk (40, 50)%float 50%float
               (Coeffs (1.00, 1.200) (0.50, 1.500))%float
               15.848931924611133%float 31.622776601683793%float
               _ _ _ _ _ _ _ _ _) _);
    try (vm_compute; reflexivity); discriminate.
Defined.

Lemma qc_power_failure_witness :
  float_pow Cases.twig_cv (2 * 3 * 0.1) 1.2 = None /\
  resp (respond (qc Demo.files Cases.twig_cv Demo.trunk_request) init_globals) = Err500.
Proof.
  assert (Hpow : float_pow Cases.twig_cv (2 * 3 * 0.1) 1.2 = None) by (vm_compute; reflexivity).
  split; [exact Hpow|].
  refine (qc_power_failure_is_500 Demo.files Cases.twig_cv Demo.trunk_request init_globals
            "/data/trunk.jpg" Demo.trunk_photo Demo.twig (2, 2)%float 3%float
            (Coeffs (1.00, 1.200) (0.50, 1.500))%float _ _ _ _ _ _ _ (or_introl _));
    try (vm_compute; reflexivity); discriminate.
Defined.

Lemma qc_requires_default_witness :
  cur_species_coeffs Cases.no_default !! "Oak" <> None /\
  cur_species_coeffs Cases.no_default !! "Default" = None /\
  resp (respond (qc Demo.files Demo.cv Demo.oak_request) Cases.no_default) = Err500.
Proof.
  assert (Hd : cur_species_coeffs Cases.no_default !! "Default" = None)
    by (vm_compute; reflexivity).
  split; [vm_compute; discriminate|]. split; [exact Hd|].
  refine (qc_requires_default_entry Demo.files Demo.cv Demo.oak_request Cases.no_default
            "/data/trunk.jpg" Demo.trunk_photo _ _ _ _ _ Hd);
    try (vm_compute; reflexivity); try discriminate; vm_compute; discriminate.
Defined.

Lemma qc_null_species_witness :
  default ∅ Cases.null_species_request !! "species" = Some JNull /\
  respond (qc Demo.files Demo.cv Cases.null_species_request) init_globals =
  respond (qc Demo.files Demo.cv (with_species Cases.null_species_request (JStr "Default")))
          init_globals.
Proof.
  assert (Hnull : default ∅ Cases.null_species_request !! "species" = Some JNull)
    by (vm_compute; reflexivity).
  split; [exact Hnull|].
  exact (qc_absent_or_null_species_is_default Demo.files Demo.cv Cases.null_species_request
           init_globals (or_intror Hnull)).
Defined.

Lemma qc_known_species_witness :
  cur_species_coeffs init_globals !! "Pine" <> cur_species_coeffs Cases.other_pine !! "Pine" /\
  resp (respond (qc Demo.files Demo.cv Demo.oak_request) init_globals) =
  resp (respond (qc Demo.files Demo.cv Demo.oak_request) Cases.other_pine).
Proof.
  split; [vm_compute; discriminate|].
  refine (qc_known_species_ignores_other_entries Demo.files Demo.cv Demo.oak_request
            init_globals Cases.other_pine "Oak" (Coeffs (1.30, 1.50) (0.70, 1.20))%float
            _ _ _ _ _);
    try (vm_compute; reflexivity); vm_compute; eexists; reflexivity.
Defined.

Lemma qc_dbh_girth_witness :
  resp (respond (qc Demo.files Demo.cv Demo.trunk_request) init_globals) = Ok200 Demo.default_result /\
  resp (respond (qc Demo.files Demo.cv Demo.oak_request) init_globals) = Ok200 Demo.oak_result /\
  dbh Demo.default_result = dbh Demo.oak_result /\
  girth Demo.default_result = girth Demo.oak_result.
Proof.
  assert (H1 : resp (respond (qc Demo.files Demo.cv Demo.trunk_request) init_globals)
               = Ok200 Demo.default_result) by (vm_compute; reflexivity).
  assert (H2 : resp (respond (qc Demo.files Demo.cv Demo.oak_request) init_globals)
               = Ok200 Demo.oak_result) by (vm_compute; reflexivity).
  split; [exact H1|]. split; [exact H2|].
  refine (qc_dbh_girth_ignore_species Demo.files Demo.cv Demo.trunk_request Demo.oak_request
            init_globals init_globals Demo.default_result Demo.oak_result _ H1 H2).
  vm_compute. reflexivity.
Defined.

Lemma qc_measures_extracted_witness :
  In (Call_minEnclosingCircle Demo.trunk)
     (calls (respond (qc Demo.files Demo.cv Demo.trunk_request) init_globals)) /\
  exists p image,
    body_image_path Demo.trunk_request = JStr p /\ cv2_imread Demo.files p = Some image /\
    In Demo.trunk (edge_contours Demo.cv image).
Proof.
  assert (Hin : In (Call_minEnclosingCircle Demo.trunk)
                  (calls (respond (qc Demo.files Demo.cv Demo.trunk_request) init_globals)))
    by (vm_compute; do 9 right; left; reflexivity).
  split; [exact Hin|].
  exact (qc_measures_an_extracted_contour Demo.files Demo.cv Demo.trunk_request init_globals
           Demo.trunk Hin).
Defined.

Lemma qc_uses_listed_witness :
  dict_of species_coeffs_literal = init_globals /\
  In "Oak" (r_species (get_species species_coeffs_literal)) /\
  exists dbh_cm p_h p_c,
    dbh Demo.oak_result = PyFloat.round1 dbh_cm /\
    float_pow Demo.cv dbh_cm 1.50 = Some p_h /\
    float_pow Demo.cv dbh_cm 1.20 = Some p_c /\
    m_height Demo.oak_result = PyFloat.round1 (1.30 * p_h) /\
    m_canopy Demo.oak_result = PyFloat.round1 (0.70 * p_c).
Proof.
  split; [vm_compute; reflexivity|].
  refine (qc_uses_listed_coefficients Demo.files Demo.cv Demo.oak_request
            species_coeffs_literal "Oak" (Coeffs (1.30, 1.50) (0.70, 1.20))%float
            Demo.oak_result _ _ _ _).
  - apply (bool_decide_unpack _). vm_compute. exact I.
  - vm_compute. do 2 right. left. reflexivity.
  - vm_compute. reflexivity.
  - vm_compute. reflexivity.
Defined.

Lemma qc_unlisted_species_witness :
  ~ In "Elm" (r_species (get_species species_coeffs_literal)) /\
  respond (qc Demo.files Demo.cv (with_species Demo.trunk_request (JStr "Elm")))
          (dict_of species_coeffs_literal) =
  respond (qc Demo.files Demo.cv (with_species Demo.trunk_request (JStr "Default")))
          (dict_of species_coeffs_literal).
Proof.
  assert (Hout : ~ In "Elm" (r_species (get_species species_coeffs_literal))).
  { vm_compute. intros Hin. repeat (destruct Hin as [E|Hin]; [discriminate|]). exact Hin. }
  split; [exact Hout|].
  exact (qc_unlisted_species_is_default Demo.files Demo.cv Demo.trunk_request
           species_coeffs_literal "Elm" Hout).
Defined.

Lemma qc_radius_only_witness :
  Demo.trunk_photo <> Cases.side_photo /\
  resp (respond (qc Demo.files Demo.cv Demo.trunk_request) init_globals) =
  resp (respond (qc Cases.side_files Demo.cv Cases.side_request) init_globals).
Proof.
  split; [discriminate|].
  refine (qc_response_depends_on_radius_only Demo.files Cases.side_files Demo.cv
            Demo.trunk_request Cases.side_request init_globals
            "/data/trunk.jpg" "/data/side.jpg" Demo.trunk_photo Cases.side_photo
            Demo.trunk Demo.trunk (40, 50)%float (40, 50)%float 50%float
            _ _ _ _ _ _ _ _ _ _ _ _ _);
    try (vm_compute; reflexivity); discriminate.
Defined.
